(** * Verification of [functions/data_prepare.py]

    A shallow embedding of the data-preparation script: the metadata loader
    [load_in4], the matcher [transform_data], the splitter [split_sets], the
    manifest writer [create_json] and the entry point [prepare_data],
    followed by the properties of the specification, each stated over these
    definitions.

    Conventions.
    - A Python [str] is a [list ascii]; a character is one code point.
    - A Python exception is a value [Raise e] of the type [result].
    - A Python [int] is a [Z]; a Python [float] is a dyadic number
      [mant * 2 ^ expo] obtained by binary64 rounding, so that [int / int]
      and [int(float)] are computed exactly as the interpreter does.
    - The interpreter and the operating system (the pseudo-random generator
      behind [random], [os.listdir], [os.path.join], [read_audio]) are
      interfaces, given as type classes. *)

From Stdlib Require Import ZArith Lia Ascii String.
From stdpp Require Import base tactics option list sets strings.

Local Open Scope Z_scope.

(** ** Exceptions *)

Inductive PyError : Type :=
  | IndexError
  | KeyError
  | ZeroDivisionError
  | OverflowError
  | OSError
  | AudioReadError.

Inductive result (A : Type) : Type :=
  | Ok (a : A)
  | Raise (e : PyError).

Arguments Ok {A} a.
Arguments Raise {A} e.

#[global] Instance result_ret : MRet result := @Ok.

#[global] Instance result_bind : MBind result := λ A B f x,
  match x with
  | Ok a => f a
  | Raise e => Raise e
  end.

#[global] Instance result_fmap : FMap result := λ A B f x,
  match x with
  | Ok a => Ok (f a)
  | Raise e => Raise e
  end.

(** ** Floats: [int / int] and [int(float)]

    [a / b] on two Python integers is the binary64 number nearest to the
    exact quotient (ties to even); it raises [ZeroDivisionError] for
    [b = 0] and [OverflowError] when the rounded quotient does not fit. *)

Module Float.

Record float : Type := Dyadic { mant : Z; expo : Z }.

Definition prec : Z := 53.
Definition emin : Z := -1074.
Definition emax : Z := 1024.

(** Numerator and denominator of [a / b / 2 ^ e]. *)
Definition num (a e : Z) : Z := a * 2 ^ Z.max 0 (- e).
Definition den (b e : Z) : Z := b * 2 ^ Z.max 0 e.

(** [ilog2 a b = floor (log2 (a / b))] for positive [a] and [b]. *)
Definition ilog2 (a b : Z) : Z :=
let k := Z.log2 a - Z.log2 b in
if den b k <=? num a k then k else k - 1.

(** Exponent of the unit in the last place of [a / b]. *)
Definition ulp_exp (a b : Z) : Z := Z.max (ilog2 a b - (prec - 1)) emin.

(** Round to nearest, ties to even, of [n / d]. *)
Definition round_half_even (n d : Z) : Z :=
let q := n / d in
let r := n mod d in
if (d <? 2 * r) || ((d =? 2 * r) && Z.odd q) then q + 1 else q.

Definition round_pos (a b : Z) : float :=
let e := ulp_exp a b in
Dyadic (round_half_even (num a e) (den b e)) e.

Definition too_large (f : float) : bool :=
(0 <=? expo f) && (2 ^ emax <=? mant f * 2 ^ expo f).

Definition true_divide (a b : Z) : result float :=
if b =? 0 then Raise ZeroDivisionError
else if a =? 0 then Ok (Dyadic 0 0)
else
  let f := round_pos (Z.abs a) (Z.abs b) in
  if too_large f then Raise OverflowError
  else Ok (Dyadic (Z.sgn a * Z.sgn b * mant f) (expo f)).

(** [int(f)]: truncation towards zero. *)
Definition to_int (f : float) : Z :=
if 0 <=? expo f then mant f * 2 ^ expo f
else Z.quot (mant f) (2 ^ (- expo f)).

End Float.

(** [int(a / b)] *)
Definition int_true_divide (a b : Z) : result Z :=
  Float.to_int <$> Float.true_divide a b.

(** ** Strings *)

Abbreviation str := (list ascii).

(** A string literal. *)
Definition lit (x : string) : str := list_ascii_of_string x.

(** [str.isspace] on the code points below 256. *)
Definition is_space (c : ascii) : bool :=
  let n := nat_of_ascii c in
  ((9 <=? n) && (n <=? 13) || (28 <=? n) && (n <=? 32)
   || (n =? 133) || (n =? 160))%nat.

Fixpoint lstrip (x : str) : str :=
  match x with
  | [] => []
  | c :: x' => if is_space c then lstrip x' else x
  end.

Definition rstrip (x : str) : str := reverse (lstrip (reverse x)).

(** [x.strip()] *)
Definition strip (x : str) : str := rstrip (lstrip x).

(** [x.split()]: the maximal runs of characters that are not whitespace. *)
Fixpoint split (x : str) : list str :=
  match x with
  | [] => []
  | c :: x' =>
    if is_space c then split x'
    else
      match x' with
      | [] => [[c]]
      | c' :: _ =>
        if is_space c' then [c] :: split x'
        else
          match split x' with
          | tok :: toks => (c :: tok) :: toks
          | [] => [[c]]
          end
      end
  end.

(** [x.split(sep)] for a separator of one character: never empty. *)
Fixpoint split_on (sep : ascii) (x : str) : list str :=
  match x with
  | [] => [[]]
  | c :: x' =>
    if decide (c = sep) then [] :: split_on sep x'
    else
      match split_on sep x' with
      | tok :: toks => (c :: tok) :: toks
      | [] => [[c]]
      end
  end.

(** [x.replace(a, b)] for two characters. *)
Definition replace (a b : ascii) (x : str) : str :=
  (λ c, if decide (c = a) then b else c) <$> x.

(** ** Lists and dictionaries *)

(** [l[i]] for an index [i] that is not negative. *)
Definition getitem {A} (l : list A) (i : nat) : result A :=
  match l !! i with
  | Some a => Ok a
  | None => Raise IndexError
  end.

(** The stop index of the slice [l[0:n]], inside [0 .. len(l)]. *)
Definition slice_stop {A} (l : list A) (n : Z) : nat :=
  Z.to_nat (if n <? 0 then n + Z.of_nat (length l) else n).

(** [l[0:n]] *)
Definition slice_to {A} (l : list A) (n : Z) : list A := take (slice_stop l n) l.

(** [del l[0:n]] *)
Definition del_slice_to {A} (l : list A) (n : Z) : list A := drop (slice_stop l n) l.

(** [x[:-4]] and the like *)
Definition drop_last {A} (k : nat) (l : list A) : list A := take (length l - k) l.

(** [sum(l)] *)
Definition sum (l : list Z) : Z := fold_left Z.add l 0.

(** A [dict] keeps its keys in insertion order; assigning to a key that is
    present replaces its value where it stands. *)
Definition pydict (K V : Type) : Type := list (K * V).

Section pydict.
Context {K V : Type} `{EqDecision K}.

Fixpoint dict_get (d : pydict K V) (k : K) : option V :=
  match d with
  | [] => None
  | (k', v) :: d' => if decide (k = k') then Some v else dict_get d' k
  end.

Fixpoint dict_set (d : pydict K V) (k : K) (v : V) : pydict K V :=
  match d with
  | [] => [(k, v)]
  | (k', v') :: d' =>
    if decide (k = k') then (k, v) :: d' else (k', v') :: dict_set d' k v
  end.

Definition keys (d : pydict K V) : list K := fst <$> d.
End pydict.

(** ** The records of the script *)

(** A row [[Id_speaker, region, Sex]] of [load_in4]. *)
Definition MetadataRow : Type := str * str * str.

(** An element [[path_wav, regions, Sex]] of [infor_wav]; [obj[0]] is
    [path_wav] and [obj[1]] is [regions]. *)
Record AudioRecord : Type := mkAudio {
  path_wav : str;
  regions : str;
  Sex : str
}.

#[global] Instance AudioRecord_eq_dec : EqDecision AudioRecord.
Proof. solve_decision. Defined.

(** The value stored under an utterance id, with its keys ["wav"],
    ["length"] and ["regions"]. *)
Record ManifestEntry : Type := mkEntry {
  entry_wav : str;
  entry_length : Float.float;
  entry_regions : str
}.

(** The dictionary returned by [split_sets], with its keys ["train"],
    ["valid"] and ["test"]. *)
Record data_split (A : Type) : Type := mkSplit {
  train : list A;
  valid : list A;
  test : list A
}.

Arguments mkSplit {A} _ _ _.
Arguments train {A} _.
Arguments valid {A} _.
Arguments test {A} _.

Definition SAMPLERATE : Z := 16000.

(** ** The interpreter and the operating system *)

(** The generator behind the module [random]: [random.seed] and the
    primitive [_randbelow] of [random.shuffle], which returns an index
    below its argument. *)
Class Random : Type := {
  rng_state : Type;
  random_seed : Z → rng_state;
  randbelow : rng_state → nat → nat * rng_state;
  randbelow_lt : ∀ g n, (0 < n)%nat → (fst (randbelow g n) < n)%nat
}.

(** The files: the lines of a text file, [os.listdir], [os.path.join],
    the number of samples that [read_audio] decodes, and whether a path can
    be opened for writing. *)
Class OS : Type := {
  read_lines : str → result (list str);
  listdir : str → result (list str);
  path_join : str → str → str;
  read_audio : str → result N;
  writable : str → bool
}.

(** ** [random.shuffle] *)

Section shuffle.
Context {RND : Random} {A : Type}.

(** [x[i], x[j] = x[j], x[i]] *)
Definition swap (x : list A) (i j : nat) : list A :=
  match x !! i, x !! j with
  | Some xi, Some xj => <[j := xi]> (<[i := xj]> x)
  | _, _ => x
  end.

(** The loop [for i in reversed(range(1, len(x)))], from [i] down to 1. *)
Fixpoint shuffle_from (i : nat) (x : list A) (g : rng_state)
  : list A * rng_state :=
  match i with
  | O => (x, g)
  | S i' =>
    let '(j, g') := randbelow g (S i) in
    shuffle_from i' (swap x i j) g'
  end.

Definition shuffle (x : list A) (g : rng_state) : list A * rng_state :=
  shuffle_from (length x - 1) x g.
End shuffle.

(** ** [split_sets] *)

Section split_sets.
Context {RND : Random} {A : Type}.

(** The loop over [data_dict.keys()] that collects [data_dict[key][0]]. *)
Fixpoint collect (data_dict : pydict nat (list A)) (ks : list nat)
  : result (list A) :=
  match ks with
  | [] => Ok []
  | key :: ks' =>
    match dict_get data_dict key with
    | Some l =>
      a ← getitem l 0;
      wav_list ← collect data_dict ks';
      Ok (a :: wav_list)
    | None => Raise KeyError
    end
  end.

(** One round of the loop over [enumerate(splits)]: the split taken and
    what is left of [wav_list]. *)
Definition take_split (tot_snts : Z) (split_ratio : list Z) (tot_split : Z)
    (i : nat) (wav_list : list A) : result (list A * list A) :=
  r ← getitem split_ratio i;
  n_snts ← int_true_divide (tot_snts * r) tot_split;
  Ok (slice_to wav_list n_snts, del_slice_to wav_list n_snts).

Definition split_shuffled (wav_list : list A) (split_ratio : list Z)
  : result (data_split A) :=
  let tot_split := sum split_ratio in
  let tot_snts := Z.of_nat (length wav_list) in
  '(tr, wav_list1) ← take_split tot_snts split_ratio tot_split 0 wav_list;
  '(va, wav_list2) ← take_split tot_snts split_ratio tot_split 1 wav_list1;
  Ok (mkSplit tr va wav_list2).

Definition split_sets (data_dict : pydict nat (list A))
    (split_ratio : list Z) (g : rng_state)
  : result (data_split A) * rng_state :=
  match collect data_dict (keys data_dict) with
  | Raise e => (Raise e, g)
  | Ok wav_list0 =>
    let '(wav_list, g') := shuffle wav_list0 g in
    (split_shuffled wav_list split_ratio, g')
  end.
End split_sets.

(** ** [load_in4] *)

Definition load_row (i : str) : result MetadataRow :=
  let text_in4 := split (strip i) in
  a ← getitem text_in4 0;
  b ← getitem text_in4 1;
  c ← getitem text_in4 2;
  Ok (a, b, c).

Fixpoint load_rows (f : list str) : result (list MetadataRow) :=
  match f with
  | [] => Ok []
  | i :: f' =>
    row ← load_row i;
    List_in4 ← load_rows f';
    Ok (row :: List_in4)
  end.

Definition load_in4 {OSI : OS} (path_txt_info : str) : result (list MetadataRow) :=
  f ← read_lines path_txt_info;
  load_rows f.

(** ** [transform_data] *)

Section transform_data.
Context {OSI : OS}.

(** The records appended for one match [str(i) == str(id_speaker)]. *)
Definition speaker_records (path_to_dataWav : str) (row : MetadataRow)
  : result (list AudioRecord) :=
  let '(id_speaker, regions, Sex) := row in
  wavs ← listdir (path_join path_to_dataWav id_speaker);
  Ok (map (λ wav_name,
        let path_wav :=
          path_join (path_join path_to_dataWav id_speaker) wav_name in
        mkAudio (replace "\" "/" path_wav) regions Sex) wavs).

(** The loop [for i in os.listdir(path_to_dataWav)] of one row. *)
Fixpoint scan_dir (path_to_dataWav : str) (row : MetadataRow)
    (names : list str) : result (list AudioRecord) :=
  match names with
  | [] => Ok []
  | i :: names' =>
    here ← (if decide (i = row.1.1)
            then speaker_records path_to_dataWav row else Ok []);
    rest ← scan_dir path_to_dataWav row names';
    Ok (here ++ rest)
  end.

Definition row_records (path_to_dataWav : str) (row : MetadataRow)
  : result (list AudioRecord) :=
  names ← listdir path_to_dataWav;
  scan_dir path_to_dataWav row names.

(** The loop over the rows, which fills [infor_wav]. *)
Fixpoint rows_records (path_to_dataWav : str) (rows : list MetadataRow)
  : result (list AudioRecord) :=
  match rows with
  | [] => Ok []
  | row :: rows' =>
    here ← row_records path_to_dataWav row;
    rest ← rows_records path_to_dataWav rows';
    Ok (here ++ rest)
  end.

(** One round of the loop [for idx in range(len(infor_wav))]. *)
Definition index_step (infor_wav : list AudioRecord)
    (data_dict : pydict nat (list AudioRecord)) (idx : nat)
  : pydict nat (list AudioRecord) :=
  let data_dict1 :=
    match dict_get data_dict idx with
    | None => dict_set data_dict idx []
    | Some _ => data_dict
    end in
  match dict_get data_dict1 idx, infor_wav !! idx with
  | Some l, Some r => dict_set data_dict1 idx (l ++ [r])
  | _, _ => data_dict1
  end.

Definition index_records (infor_wav : list AudioRecord)
  : pydict nat (list AudioRecord) :=
  fold_left (index_step infor_wav) (seq 0 (length infor_wav)) [].

Definition infor_wav_of (path_to_dataWav path_txt_info : str)
  : result (list AudioRecord) :=
  rows ← load_in4 path_txt_info;
  rows_records path_to_dataWav rows.

Definition transform_data (path_to_dataWav path_txt_info : str)
  : result (pydict nat (list AudioRecord)) :=
  index_records <$> infor_wav_of path_to_dataWav path_txt_info.
End transform_data.

(** ** [create_json] *)

(** [wav_file.split("/")[-1][:-4]] *)
Definition uttid_of (wav_file : str) : str :=
  match last (split_on "/" wav_file) with
  | Some name => drop_last 4 name
  | None => []
  end.

Section create_json.
Context {OSI : OS}.

Definition json : Type := pydict str ManifestEntry.

(** The entry of one element of [wav_list]. *)
Definition entry_of (obj : AudioRecord) : result ManifestEntry :=
  let wav_file := path_wav obj in
  let regions := regions obj in
  signal ← read_audio wav_file;
  duration ← Float.true_divide (Z.of_N signal) SAMPLERATE;
  Ok (mkEntry wav_file duration regions).

(** The loop [for obj in wav_list]. *)
Fixpoint fill_json (wav_list : list AudioRecord) (json_dict : json)
  : result json :=
  match wav_list with
  | [] => Ok json_dict
  | obj :: wav_list' =>
    e ← entry_of obj;
    fill_json wav_list' (dict_set json_dict (uttid_of (path_wav obj)) e)
  end.

(** The files written so far, by path. *)
Definition outputs : Type := pydict str json.

Definition create_json (wav_list : list AudioRecord) (json_file_save : str)
    (out : outputs) : result unit * outputs :=
  match fill_json wav_list [] with
  | Raise e => (Raise e, out)
  | Ok json_dict =>
    if writable json_file_save
    then (Ok (), dict_set out json_file_save json_dict)
    else (Raise OSError, out)
  end.
End create_json.

(** ** [skip]

    [isfile] stands for [os.path.isfile]. *)

Fixpoint skip (isfile : str → bool) (filenames : list str) : bool :=
  match filenames with
  | [] => true
  | filename :: filenames' =>
    if negb (isfile filename) then false else skip isfile filenames'
  end.

(** ** [prepare_data]

    The parameters [different_speakers] and [test_spk_id] of the source are
    read nowhere in its body and are left out. *)

Section prepare_data.
Context {RND : Random} {OSI : OS}.

(** What a run can change: the state of the module [random] and the
    files written. *)
Record world : Type := mkWorld {
  rng : rng_state;
  written : outputs
}.

(** The first half of [prepare_data]: [random.seed(seed)], which replaces
    whatever state the generator [g0] was in, then [transform_data] and
    [split_sets]. *)
Definition seed_and_split (data_original path_txt_info : str)
    (split_ratio : list Z) (seed : Z) (g0 : rng_state)
  : result (data_split AudioRecord) * rng_state :=
  let g := random_seed seed in
  match transform_data data_original path_txt_info with
  | Raise e => (Raise e, g)
  | Ok info_dict => split_sets info_dict split_ratio g
  end.

Definition prepare_data (data_original path_txt_info save_json_train
    save_json_valid save_json_test : str) (split_ratio : list Z) (seed : Z)
    (w : world) : result unit * world :=
  match seed_and_split data_original path_txt_info split_ratio seed (rng w) with
  | (Raise e, g') => (Raise e, mkWorld g' (written w))
  | (Ok data_split, g') =>
    match create_json (train data_split) save_json_train (written w) with
    | (Raise e, out) => (Raise e, mkWorld g' out)
    | (Ok _, out1) =>
      match create_json (valid data_split) save_json_valid out1 with
      | (Raise e, out) => (Raise e, mkWorld g' out)
      | (Ok _, out2) =>
        match create_json (test data_split) save_json_test out2 with
        | (r, out3) => (r, mkWorld g' out3)
        end
      end
    end
  end.

(** The defaults [split_ratio=[80, 10, 10]] and [seed=12]. *)
Definition default_split_ratio : list Z := [80; 10; 10].
Definition default_seed : Z := 12.

Definition prepare_data_default (data_original path_txt_info save_json_train
    save_json_valid save_json_test : str) : world → result unit * world :=
  prepare_data data_original path_txt_info save_json_train save_json_valid
    save_json_test default_split_ratio default_seed.
End prepare_data.

(** ** Vocabulary of the specification *)

(** The record that the splitter takes from the entry of a key:
    [data_dict[key][0]]. *)
Definition record_of {A} (data_dict : pydict nat (list A)) (key : nat) (a : A)
  : Prop :=
  ∃ l, dict_get data_dict key = Some l ∧ l !! 0%nat = Some a.

(** Every entry of the mapping holds at least one record. *)
Definition nonempty_entries {A} (data_dict : pydict nat (list A)) : Prop :=
  Forall (λ kv, kv.2 ≠ []) data_dict.

(** The same record in each split, after a function on records. *)
Definition map_split {A B} (f : A → B) (ds : data_split A) : data_split B :=
  mkSplit (f <$> train ds) (f <$> valid ds) (f <$> test ds).

(** A string of whitespace, a token, and what may follow a token. *)
Definition blank (w : str) : Prop := Forall (λ c, is_space c = true) w.

Definition token (t : str) : Prop :=
  t ≠ [] ∧ Forall (λ c, is_space c = false) t.

Definition ends_token (rest : str) : Prop :=
  match rest with
  | [] => True
  | c :: _ => is_space c = true
  end.



(** The utterance ids of a list of records, in order. *)
Definition uttids (wav_list : list AudioRecord) : list str :=
  (λ obj, uttid_of (path_wav obj)) <$> wav_list.

(** The assignments [d[k] = v] of a list of pairs, in order. *)
Definition assign_all {K V} `{EqDecision K} (d : pydict K V)
    (kvs : list (K * V)) : pydict K V :=
  fold_left (λ d kv, dict_set d kv.1 kv.2) kvs d.

(** The order in which keys are first met. *)
Definition add_key {K} `{EqDecision K} (ks : list K) (k : K) : list K :=
  if decide (k ∈ ks) then ks else ks ++ [k].

Definition insertion_order {K} `{EqDecision K} (l : list K) : list K :=
  fold_left add_key l [].

(** Every file of the list decodes, to the given numbers of samples. *)
Definition decodes {OSI : OS} (wav_list : list AudioRecord) (samples : list N)
  : Prop :=
  Forall2 (λ obj n, read_audio (path_wav obj) = Ok n ∧ Z.of_N n < 2 ^ 1023)
    wav_list samples.

(** The entry of a record whose file decodes to [n] samples: its path, the
    float [n / 16000] and its region label. *)
Definition entry_for (obj : AudioRecord) (n : N) (e : ManifestEntry) : Prop :=
  entry_wav e = path_wav obj
  ∧ Float.true_divide (Z.of_N n) 16000 = Ok (entry_length e)
  ∧ entry_regions e = regions obj.

(** The path that [transform_data] gives the file [wav_name] of a speaker. *)
Definition full_path {OSI : OS} (path_to_dataWav id_speaker wav_name : str)
  : str :=
  replace "\" "/" (path_join (path_join path_to_dataWav id_speaker) wav_name).

(** The files directly inside the directory of a speaker. *)
Definition files_of {OSI : OS} (path_to_dataWav id_speaker : str) : list str :=
  match listdir (path_join path_to_dataWav id_speaker) with
  | Ok wavs => wavs
  | Raise _ => []
  end.

(** The record of a pair of a row and a file. *)
Definition record_for {OSI : OS} (path_to_dataWav : str) (row : MetadataRow)
    (wav_name : str) : AudioRecord :=
  mkAudio (full_path path_to_dataWav row.1.1 wav_name) row.1.2 row.2.

(** The records of a row: one for each file of its speaker, none when no
    entry of the audio root has the name of the speaker. *)
Definition pair_records {OSI : OS} (path_to_dataWav : str) (names : list str)
    (row : MetadataRow) : list AudioRecord :=
  if decide (row.1.1 ∈ names)
  then record_for path_to_dataWav row <$> files_of path_to_dataWav row.1.1
  else [].

(** The paths of all the files of all the speakers. *)
Definition audio_paths {OSI : OS} (path_to_dataWav : str) (names : list str)
  : list str :=
  names ≫= λ s, full_path path_to_dataWav s <$> files_of path_to_dataWav s.

(** An entry of the audio root that can be listed is a subdirectory. *)
Definition subdirectory {OSI : OS} (path_to_dataWav name : str) : Prop :=
  ∃ names wavs, listdir path_to_dataWav = Ok names ∧ name ∈ names
    ∧ listdir (path_join path_to_dataWav name) = Ok wavs.

(** The mapping with a function applied to every record. *)
Definition map_records {A B} (f : A → B) (data_dict : pydict nat (list A))
  : pydict nat (list B) :=
  map (λ kv : nat * list A, (kv.1, map f kv.2)) data_dict.

(** ** A small world to run the script in *)

Module Fixture.

(** A linear congruential generator in the place of [random]. *)
Definition lcg_next (g : Z) : Z := (g * 1103515245 + 12345) mod 2 ^ 31.

Definition lcg_randbelow (g : Z) (n : nat) : nat * Z :=
  let g' := lcg_next g in
  (Z.to_nat ((g' / 65536) mod Z.of_nat n), g').

#[export] Program Instance lcg : Random := {|
  rng_state := Z;
  random_seed := λ a, Z.abs a mod 2 ^ 31;
  randbelow := lcg_randbelow
|}.
Next Obligation.
  intros g n Hn. simpl.
  pose proof (Z.mod_pos_bound (lcg_next g / 65536) (Z.of_nat n)). lia.
Qed.

Definition nl : ascii := "010".

(** [posixpath.join] of two components. *)
Definition posix_join (a b : str) : str :=
  match b with
  | "/"%char :: _ => b
  | _ =>
    match last a with
    | None => b
    | Some "/"%char => a ++ b
    | Some _ => a ++ "/"%char :: b
    end
  end.

Definition meta_lines : list str :=
  [ lit "spk1 north male" ++ [nl];
    lit "  spk9   south   female  " ++ [nl];
    lit "spk2 central female extra" ++ [nl];
    lit "spk1 north male" ++ [nl] ].

(** The directory [data] holds the speakers [spk1] and [spk2] and a plain
    file [notes.txt]. *)
Definition mem_listdir (p : str) : result (list str) :=
  if decide (p = lit "data") then Ok [lit "spk1"; lit "spk2"; lit "notes.txt"]
  else if decide (p = lit "data/spk1") then Ok [lit "a.wav"; lit "b.wav"]
  else if decide (p = lit "data/spk2") then Ok [lit "clip01.wav"]
  else Raise OSError.

Definition mem_read_audio (p : str) : result N :=
  if decide (p = lit "data/spk1/a.wav") then Ok 16000%N
  else if decide (p = lit "data/spk1/b.wav") then Ok 24000%N
  else if decide (p = lit "data/spk2/clip01.wav") then Ok 1%N
  else Raise AudioReadError.

#[export] Instance mem_os : OS := {|
  read_lines := λ p,
    if decide (p = lit "meta.tsv") then Ok meta_lines else Raise OSError;
  listdir := mem_listdir;
  path_join := posix_join;
  read_audio := mem_read_audio;
  writable := λ _, true
|}.

(** A mapping from positions to one-element lists, as [transform_data]
    builds it. *)
Definition numbered (n : nat) : pydict nat (list nat) :=
  (λ i, (i, [i])) <$> seq 0 n.

End Fixture.

(** ** The small world with faults *)

Module Faulty.

(** The same directory, where the file [b.wav] does not decode, the table
[blank.tsv] ends in an empty line, the table [notes.tsv] has a row for the
plain file [notes.txt], the table [strangers.tsv] has one row for a speaker
without a directory, and the path [readonly.json] cannot be written. *)
Definition faulty_read_audio (p : str) : result N :=
  if decide (p = lit "data/spk1/b.wav") then Raise AudioReadError
  else Fixture.mem_read_audio p.

Definition faulty_read_lines (p : str) : result (list str) :=
  if decide (p = lit "meta.tsv") then Ok Fixture.meta_lines
  else if decide (p = lit "blank.tsv")
  then Ok [lit "spk1 north male" ++ [Fixture.nl]; [Fixture.nl]]
  else if decide (p = lit "notes.tsv")
  then Ok [lit "spk2 central female" ++ [Fixture.nl];
           lit "notes.txt north male" ++ [Fixture.nl];
           lit "spk1 north male" ++ [Fixture.nl]]
  else if decide (p = lit "strangers.tsv")
  then Ok [lit "spk7 north male" ++ [Fixture.nl]]
  else Raise OSError.

#[export] Instance faulty_os : OS := {|
  read_lines := faulty_read_lines;
  listdir := Fixture.mem_listdir;
  path_join := Fixture.posix_join;
  read_audio := faulty_read_audio;
  writable := λ p, bool_decide (p ≠ lit "readonly.json")
|}.

End Faulty.

(** * Properties *)

(** ** Integer division through floats *)

Module FloatFacts.
Import Float.

Lemma num_nonpos a e : e ≤ 0 → num a e = a * 2 ^ (- e).
Proof. intros He. unfold num. by rewrite Z.max_r by lia. Qed.

Lemma den_nonpos b e : e ≤ 0 → den b e = b.
Proof. intros He. unfold den. rewrite Z.max_l by lia. lia. Qed.

Lemma num_nonneg a e : 0 ≤ e → num a e = a.
Proof. intros He. unfold num. rewrite Z.max_l by lia. lia. Qed.

Lemma den_nonneg b e : 0 ≤ e → den b e = b * 2 ^ e.
Proof. intros He. unfold den. by rewrite Z.max_r by lia. Qed.

(** [ilog2 a b] is at most the logarithm of the quotient. *)
Lemma ilog2_lower a b :
0 < a → 0 < b → den b (ilog2 a b) ≤ num a (ilog2 a b).
Proof.
intros Ha Hb. unfold ilog2.
destruct (Z.leb_spec (den b (Z.log2 a - Z.log2 b))
            (num a (Z.log2 a - Z.log2 b))) as [Hle|Hlt]; [done|].
pose proof (Z.log2_spec a Ha) as [Hla Hua].
pose proof (Z.log2_spec b Hb) as [Hlb Hub].
pose proof (Z.log2_nonneg a) as Hna.
pose proof (Z.log2_nonneg b) as Hnb.
set (la := Z.log2 a) in *. set (lb := Z.log2 b) in *.
destruct (Z_lt_le_dec (la - lb - 1) 0) as [Hk|Hk].
- rewrite num_nonpos, den_nonpos by lia.
  replace (- (la - lb - 1)) with (Z.succ lb - la) by lia.
  assert (2 ^ la * 2 ^ (Z.succ lb - la) = 2 ^ Z.succ lb) as Hpow.
  { rewrite <- Z.pow_add_r by lia. f_equal; lia. }
  assert (0 < 2 ^ (Z.succ lb - la)) by (apply Z.pow_pos_nonneg; lia).
  nia.
- rewrite num_nonneg, den_nonneg by lia.
  assert (2 ^ Z.succ lb * 2 ^ (la - lb - 1) = 2 ^ la) as Hpow.
  { rewrite <- Z.pow_add_r by lia. f_equal; lia. }
  assert (0 < 2 ^ (la - lb - 1)) by (apply Z.pow_pos_nonneg; lia).
  nia.
Qed.

Lemma ilog2_upper a b :
0 < a → 0 < b → ilog2 a b ≤ Z.log2 a.
Proof.
intros Ha Hb. unfold ilog2. pose proof (Z.log2_nonneg b).
destruct (_ <=? _); lia.
Qed.

(** Rounding the scaled quotient and dropping the scale again is the floor
  of the quotient, as long as half a unit stays below the distance of the
  quotient to the next integer. *)
Lemma round_half_even_floor a b P :
0 ≤ a → 0 < b → 0 < P →
b < 2 * P * (b - a mod b) →
round_half_even (a * P) b / P = a / b.
Proof.
intros Ha Hb HP Hgap. unfold round_half_even.
assert ((a * P / b) / P = a / b) as Hfloor.
{ rewrite Z.div_div by lia. rewrite (Z.mul_comm b P).
  rewrite (Z.mul_comm a P). apply Z.div_mul_cancel_l; lia. }
destruct ((b <? 2 * (a * P mod b))
          || (b =? 2 * (a * P mod b)) && Z.odd (a * P / b)) eqn:Hup;
  [|done].
assert (b ≤ 2 * (a * P mod b)) as Hhalf.
{ apply orb_true_iff in Hup as [Hup|Hup].
  - apply Z.ltb_lt in Hup. lia.
  - apply andb_true_iff in Hup as [Hup _]. apply Z.eqb_eq in Hup. lia. }
clear Hup.
pose proof (Z.div_mod a b ltac:(lia)) as Ha_eq.
pose proof (Z.mod_pos_bound a b Hb) as Hrho.
set (q := a / b) in *. set (rho := a mod b) in *.
pose proof (Z.div_mod (rho * P) b ltac:(lia)) as Ht_eq.
pose proof (Z.mod_pos_bound (rho * P) b Hb) as Hr.
set (t := rho * P / b) in *. set (r := (rho * P) mod b) in *.
assert (0 ≤ t) as Ht0 by (apply Z.div_pos; nia).
assert (t < P) as HtP by (apply Z.div_lt_upper_bound; nia).
assert (a * P = b * (q * P + t) + r) as Hn by nia.
assert (a * P / b = q * P + t) as Hm0.
{ symmetry. apply (Z.div_unique_pos _ _ _ r); lia. }
assert (a * P mod b = r) as Hr0.
{ symmetry. apply (Z.mod_unique_pos _ _ (q * P + t)); lia. }
rewrite Hm0. rewrite Hr0 in Hhalf.
assert (t + 1 < P) as Hroom by nia.
symmetry. apply (Z.div_unique_pos _ _ _ (t + 1)); lia.
Qed.

Lemma to_int_nonpos_exp m e :
0 ≤ m → e ≤ 0 → to_int (Dyadic m e) = m / 2 ^ (- e).
Proof.
intros Hm He. unfold to_int. simpl.
destruct (Z.leb_spec 0 e) as [H0|H0].
- assert (e = 0) as -> by lia. change (2 ^ (- 0)) with 1.
  change (2 ^ 0) with 1. rewrite Z.div_1_r. lia.
- apply Z.quot_div_nonneg; [done|]. apply Z.pow_pos_nonneg; lia.
Qed.

Lemma round_half_even_bounds n d :
0 ≤ n → 0 < d → 0 ≤ round_half_even n d ≤ n + 1.
Proof.
intros Hn Hd. unfold round_half_even.
assert (0 ≤ n / d) by (apply Z.div_pos; lia).
assert (n / d ≤ n) by (apply Z.div_le_upper_bound; nia).
destruct (_ || _); lia.
Qed.

End FloatFacts.

(** [int(a / b)] is the floor of the quotient when [a] is an integer that a
    float holds exactly. *)
Lemma int_true_divide_floor a b :
  0 ≤ a < 2 ^ 53 → 0 < b → int_true_divide a b = Ok (a / b).
Proof.
  intros [Ha0 Ha] Hb. unfold int_true_divide, Float.true_divide.
  destruct (Z.eqb_spec b 0) as [?|_]; [lia|].
  destruct (Z.eqb_spec a 0) as [->|Hne]; [done|].
  assert (0 < a) as Hapos by lia.
  rewrite (Z.abs_eq a), (Z.abs_eq b) by lia.
  rewrite (Z.sgn_pos a), (Z.sgn_pos b) by lia.
  pose proof (FloatFacts.ilog2_lower a b Hapos Hb) as Hlow.
  pose proof (FloatFacts.ilog2_upper a b Hapos Hb) as Hupp.
  assert (Z.log2 a < 53) as Hlog by (apply Z.log2_lt_pow2; lia).
  unfold Float.round_pos. set (e := Float.ulp_exp a b).
  assert (e ≤ 0) as He by (unfold e, Float.ulp_exp, Float.prec, Float.emin; lia).
  rewrite FloatFacts.num_nonpos, FloatFacts.den_nonpos by done.
  assert (0 < 2 ^ (- e)) as HP by (apply Z.pow_pos_nonneg; lia).
  pose proof (FloatFacts.round_half_even_bounds (a * 2 ^ (- e)) b
                ltac:(nia) Hb) as [Hm0 Hm1].
  set (m := Float.round_half_even (a * 2 ^ (- e)) b) in *.
  assert (Float.too_large (Float.Dyadic m e) = false) as ->.
  { unfold Float.too_large. simpl.
    destruct (Z.leb_spec 0 e) as [H0|H0]; [|done]. simpl.
    assert (e = 0) as He0 by lia. rewrite He0 in *.
    change (2 ^ (- 0)) with 1 in *. change (2 ^ 0) with 1.
    apply Z.leb_gt. unfold Float.emax.
    assert (2 ^ 53 < 2 ^ 1024) by (apply Z.pow_lt_mono_r; lia). lia. }
  simpl. f_equal. rewrite Z.mul_1_l.
  rewrite FloatFacts.to_int_nonpos_exp by done.
  apply FloatFacts.round_half_even_floor; [lia..|].
  pose proof (Z.mod_pos_bound a b Hb) as Hrho.
  unfold e, Float.ulp_exp, Float.prec, Float.emin in *.
  set (L := Float.ilog2 a b) in *.
  destruct (Z_lt_le_dec (L - (53 - 1)) (-1074)) as [Hclamp|Hnorm].
  - rewrite Z.max_r in * by lia.
    destruct (Z_lt_le_dec b (2 ^ 54)) as [Hsmall|Hbig].
    + assert (2 ^ 54 ≤ 2 ^ (- -1074)) by (apply Z.pow_le_mono_r; lia). nia.
    + rewrite Z.mod_small by (assert (2 ^ 53 < 2 ^ 54) by (apply Z.pow_lt_mono_r; lia); lia).
      assert (2 * 2 ^ 53 = 2 ^ 54) as Hdbl by (rewrite <- Z.pow_succ_r; [done|lia]).
      nia.
  - rewrite Z.max_l in * by lia.
    replace (- (L - (53 - 1))) with (52 - L) by lia.
    assert (2 * 2 ^ (52 - L) = 2 ^ (53 - L)) as Hdbl.
    { rewrite <- Z.pow_succ_r by lia. f_equal; lia. }
    destruct (Z_lt_le_dec L 0) as [HL|HL].
    + rewrite FloatFacts.num_nonpos, FloatFacts.den_nonpos in Hlow by lia.
      assert (2 ^ 53 * 2 ^ (- L) = 2 ^ (53 - L)) as Hsplit.
      { rewrite <- Z.pow_add_r by lia. f_equal; lia. }
      assert (0 < 2 ^ (- L)) by (apply Z.pow_pos_nonneg; lia). nia.
    + rewrite FloatFacts.num_nonneg, FloatFacts.den_nonneg in Hlow by lia.
      assert (2 ^ (53 - L) * 2 ^ L = 2 ^ 53) as Hsplit.
      { rewrite <- Z.pow_add_r by lia. f_equal; lia. }
      assert (0 < 2 ^ L) by (apply Z.pow_pos_nonneg; lia). nia.
Qed.

(** [a / b] does not overflow while the quotient stays below [2 ^ 1023]. *)
Lemma true_divide_ok a b :
  b ≠ 0 → Z.abs a < 2 ^ 1023 * Z.abs b → ∃ f, Float.true_divide a b = Ok f.
Proof.
  intros Hb Hq. unfold Float.true_divide.
  destruct (Z.eqb_spec b 0) as [?|_]; [done|].
  destruct (Z.eqb_spec a 0) as [?|Ha]; [by eexists|].
  set (a' := Z.abs a) in *. set (b' := Z.abs b) in *.
  assert (0 < a') as Ha' by (unfold a'; lia).
  assert (0 < b') as Hb' by (unfold b'; lia).
  assert (Float.too_large (Float.round_pos a' b') = false) as ->; [|by eexists].
  unfold Float.too_large, Float.round_pos. simpl.
  destruct (Z.leb_spec 0 (Float.ulp_exp a' b')) as [He|He]; [|done]. simpl.
  apply Z.leb_gt.
  pose proof (FloatFacts.ilog2_lower a' b' Ha' Hb') as Hlow.
  unfold Float.ulp_exp, Float.prec, Float.emin in *.
  set (L := Float.ilog2 a' b') in *.
  assert (52 ≤ L) as HL by lia.
  rewrite Z.max_l in * by lia.
  rewrite FloatFacts.num_nonneg, FloatFacts.den_nonneg in * by lia.
  assert (L < 1023) as HL'.
  { apply (Z.pow_lt_mono_r_iff 2); [lia..|].
    assert (0 < 2 ^ L) by (apply Z.pow_pos_nonneg; lia). nia. }
  set (e := L - (53 - 1)) in *.
  assert (0 < 2 ^ e) as HP by (apply Z.pow_pos_nonneg; lia).
  assert (2 ^ e ≤ 2 ^ 1023) as HPle by (apply Z.pow_le_mono_r; lia).
  assert (2 ^ Float.emax = 2 * 2 ^ 1023) as -> by done.
  set (X := 2 ^ 1023) in *. set (P := 2 ^ e) in *.
  unfold Float.round_half_even.
  pose proof (Z.mul_div_le a' (b' * P) ltac:(nia)) as Hq0.
  assert (0 ≤ a' / (b' * P)) as Hq1 by (apply Z.div_pos; nia).
  set (q0 := a' / (b' * P)) in *.
  assert (q0 * P < X) by nia.
  destruct (_ || _); nia.
Qed.

(** ** The result monad *)

Lemma bind_Ok {A B} (x : result A) (f : A → result B) b :
  x ≫= f = Ok b ↔ ∃ a, x = Ok a ∧ f a = Ok b.
Proof.
  destruct x as [a|e]; simpl; split.
  - intros Hf. by exists a.
  - by intros (a' & [= <-] & Hf).
  - done.
  - by intros (a' & [=] & _).
Qed.

Lemma bind_ret_r {A} (x : result A) : x ≫= Ok = x.
Proof. by destruct x. Qed.

Lemma getitem_Ok {A} (l : list A) i a : getitem l i = Ok a ↔ l !! i = Some a.
Proof. unfold getitem. destruct (l !! i); naive_solver. Qed.

Lemma getitem_Raise {A} (l : list A) i e :
  getitem l i = Raise e ↔ (length l ≤ i)%nat ∧ e = IndexError.
Proof.
  unfold getitem. destruct (l !! i) eqn:Hl.
  - apply lookup_lt_Some in Hl. split; [intros [=]|lia].
  - apply lookup_ge_None in Hl. split; [by intros [= <-]|by intros [_ ->]].
Qed.

(** ** [random.shuffle] permutes its argument *)

Section shuffle_facts.
Context {RND : Random}.

Lemma insert_head_perm {A} (x : list A) j a xj :
  x !! j = Some xj → xj :: <[j := a]> x ≡ₚ a :: x.
Proof.
  revert j. induction x as [|b x IH]; intros [|j] Hj; simplify_eq/=.
  - apply perm_swap.
  - rewrite (perm_swap b xj), (IH _ Hj). apply perm_swap.
Qed.

Lemma swap_perm {A} (x : list A) i j : swap x i j ≡ₚ x.
Proof.
  revert i j. induction x as [|a x IH]; intros i j; [by destruct i, j|].
  unfold swap. destruct i as [|i], j as [|j]; simpl.
  - done.
  - destruct (x !! j) as [xj|] eqn:Hj; [|done]. simpl.
    by apply insert_head_perm.
  - destruct (x !! i) as [xi|] eqn:Hi; [|done]. simpl.
    by apply insert_head_perm.
  - specialize (IH i j). unfold swap in IH.
    destruct (x !! i), (x !! j); simpl; try done. by f_equiv.
Qed.

Lemma swap_fmap {A B} (f : A → B) (x : list A) i j :
  swap (f <$> x) i j = f <$> swap x i j.
Proof.
  unfold swap. rewrite !list_lookup_fmap.
  destruct (x !! i), (x !! j); simpl; try done.
  by rewrite !list_fmap_insert.
Qed.

Lemma length_swap {A} (x : list A) i j : length (swap x i j) = length x.
Proof. apply Permutation_length, swap_perm. Qed.

(** Inside the loop of [shuffle] both indices are in range, so the
    exchange is the assignment of the source. *)
Lemma swap_in_range {A} (x : list A) i g :
  (i < length x)%nat →
  ∃ xi xj, x !! i = Some xi ∧ x !! (randbelow g (S i)).1 = Some xj ∧
    swap x i (randbelow g (S i)).1
    = <[(randbelow g (S i)).1 := xi]> (<[i := xj]> x).
Proof.
  intros Hi. pose proof (randbelow_lt g (S i) ltac:(lia)) as Hj.
  destruct (lookup_lt_is_Some_2 x i Hi) as [xi Hxi].
  destruct (lookup_lt_is_Some_2 x (randbelow g (S i)).1 ltac:(lia))
    as [xj Hxj].
  exists xi, xj. unfold swap. by rewrite Hxi, Hxj.
Qed.

Lemma shuffle_from_perm {A} i (x : list A) g : (shuffle_from i x g).1 ≡ₚ x.
Proof.
  revert x g. induction i as [|i IH]; intros x g; simpl; [done|].
  destruct (randbelow g (S (S i))) as [j g'].
  rewrite IH. apply swap_perm.
Qed.

Lemma shuffle_perm {A} (x : list A) g : (shuffle x g).1 ≡ₚ x.
Proof. apply shuffle_from_perm. Qed.

Lemma shuffle_from_fmap {A B} (f : A → B) i (x : list A) g :
  shuffle_from i (f <$> x) g
  = (f <$> (shuffle_from i x g).1, (shuffle_from i x g).2).
Proof.
  revert x g. induction i as [|i IH]; intros x g; simpl; [done|].
  destruct (randbelow g (S (S i))) as [j g'].
  by rewrite swap_fmap, IH.
Qed.

Lemma shuffle_fmap {A B} (f : A → B) (x : list A) g :
  shuffle (f <$> x) g = (f <$> (shuffle x g).1, (shuffle x g).2).
Proof. unfold shuffle. rewrite length_fmap. apply shuffle_from_fmap. Qed.

Lemma length_shuffle {A} (x : list A) g : length (shuffle x g).1 = length x.
Proof. apply Permutation_length, shuffle_perm. Qed.
End shuffle_facts.

(** ** The slices of [split_sets] *)

Section split_facts.
Context {RND : Random}.

Lemma slice_to_del {A} (l : list A) n : slice_to l n ++ del_slice_to l n = l.
Proof. apply take_drop. Qed.

Lemma slice_stop_fmap {A B} (f : A → B) (l : list A) n :
  slice_stop (f <$> l) n = slice_stop l n.
Proof. unfold slice_stop. by rewrite length_fmap. Qed.

Lemma slice_stop_nonneg {A} (l : list A) n :
  0 ≤ n → slice_stop l n = Z.to_nat n.
Proof.
  intros Hn. unfold slice_stop. by destruct (Z.ltb_spec n 0); [lia|].
Qed.

Lemma take_split_app {A} N ratio tot i (l a rest : list A) :
  take_split N ratio tot i l = Ok (a, rest) → a ++ rest = l.
Proof.
  unfold take_split. intros Hs.
  apply bind_Ok in Hs as (r & _ & Hs). apply bind_Ok in Hs as (n & _ & Hs).
  injection Hs as <- <-. apply slice_to_del.
Qed.

Lemma take_split_fmap {A B} (f : A → B) N ratio tot i (l : list A) :
  take_split N ratio tot i (f <$> l)
  = (λ ar : list A * list A, (f <$> ar.1, f <$> ar.2))
    <$> take_split N ratio tot i l.
Proof.
  unfold take_split. destruct (getitem ratio i) as [r|e]; simpl; [|done].
  destruct (int_true_divide (N * r) tot) as [n|e]; simpl; [|done].
  unfold slice_to, del_slice_to.
  by rewrite slice_stop_fmap, fmap_take, fmap_drop.
Qed.

Lemma split_shuffled_app {A} (l : list A) ratio ds :
  split_shuffled l ratio = Ok ds → train ds ++ valid ds ++ test ds = l.
Proof.
  unfold split_shuffled. intros Hs.
  apply bind_Ok in Hs as ([tr l1] & H1 & Hs).
  apply bind_Ok in Hs as ([va l2] & H2 & Hs).
  injection Hs as <-. simpl.
  apply take_split_app in H1, H2. by subst.
Qed.

Lemma split_shuffled_fmap {A B} (f : A → B) (l : list A) ratio :
  split_shuffled (f <$> l) ratio = map_split f <$> split_shuffled l ratio.
Proof.
  unfold split_shuffled. rewrite length_fmap, take_split_fmap.
  destruct (take_split _ ratio _ 0 l) as [[tr l1]|e]; simpl; [|done].
  rewrite take_split_fmap.
  by destruct (take_split _ ratio _ 1 l1) as [[va l2]|e].
Qed.

Lemma collect_Forall2 {A} (d : pydict nat (list A)) ks l :
  collect d ks = Ok l → Forall2 (record_of d) ks l.
Proof.
  revert l. induction ks as [|k ks IH]; intros l; simpl.
  - intros [= <-]. constructor.
  - destruct (dict_get d k) as [rl|] eqn:Hk; [|done]. intros Hc.
    apply bind_Ok in Hc as (a & Ha & Hc).
    apply bind_Ok in Hc as (l' & Hl' & [= <-]).
    constructor; [|by apply IH].
    exists rl. split; [done|]. by apply getitem_Ok.
Qed.

Lemma dict_get_elem {K V} `{EqDecision K} (d : pydict K V) k :
  k ∈ keys d → ∃ v, dict_get d k = Some v ∧ (k, v) ∈ d.
Proof.
  induction d as [|[k' v'] d IH]; simpl.
  - by intros ?%elem_of_nil.
  - intros Hk. destruct (decide (k = k')) as [->|Hne].
    + exists v'. split; [done|]. left.
    + apply elem_of_cons in Hk as [?|Hk]; [done|].
      destruct (IH Hk) as (v & Hv & Hin). exists v. split; [done|]. by right.
Qed.

Lemma collect_ok {A} (d : pydict nat (list A)) ks :
  nonempty_entries d → ks ⊆ keys d → ∃ l, collect d ks = Ok l.
Proof.
  intros Hne. induction ks as [|k ks IH]; intros Hks; simpl; [by eexists|].
  destruct (dict_get_elem d k) as (rl & -> & Hin); [set_solver|].
  unfold nonempty_entries in Hne. rewrite Forall_forall in Hne.
  specialize (Hne _ Hin). simpl in Hne.
  destruct rl as [|a rl]; [done|]. simpl.
  destruct IH as [l ->]; [set_solver|]. by eexists.
Qed.

Lemma length_collect {A} (d : pydict nat (list A)) ks l :
  collect d ks = Ok l → length l = length ks.
Proof. intros Hc%collect_Forall2. symmetry. by eapply Forall2_length. Qed.

Lemma Forall2_zip_diag {A B} (R : A → B → Prop) ks l :
  Forall2 R ks l → Forall (λ p, R p.1 p.2) (zip ks l).
Proof. induction 1; simpl; by constructor. Qed.

(** The splitter moves records and does not look at them: the splits of
    the records are the splits of the pairs of a key and its record. *)
Lemma split_sets_pairs {A} (d : pydict nat (list A)) ratio g ds :
  (split_sets d ratio g).1 = Ok ds →
  ∃ ps : data_split (nat * A),
    ds = map_split snd ps
    ∧ fst <$> (train ps ++ valid ps ++ test ps) ≡ₚ keys d
    ∧ Forall (λ p, record_of d p.1 p.2) (train ps ++ valid ps ++ test ps).
Proof.
  unfold split_sets.
  destruct (collect d (keys d)) as [l0|e] eqn:Hc; [|done].
  pose proof (collect_Forall2 _ _ _ Hc) as HR.
  pose proof (Forall2_length _ _ _ HR) as Hlen.
  set (pairs := zip (keys d) l0).
  assert (fst <$> pairs = keys d) as Hfst by (apply fst_zip; lia).
  assert (snd <$> pairs = l0) as Hsnd by (apply snd_zip; lia).
  rewrite <- Hsnd, shuffle_fmap.
  destruct (shuffle pairs g) as [sp g'] eqn:Hsh. simpl.
  rewrite split_shuffled_fmap.
  destruct (split_shuffled sp ratio) as [ps|e] eqn:Hps; [|done].
  simpl. intros [= <-]. exists ps. split; [done|].
  apply split_shuffled_app in Hps. rewrite Hps.
  assert (sp ≡ₚ pairs) as Hperm.
  { pose proof (shuffle_perm pairs g) as Hp. by rewrite Hsh in Hp. }
  split.
  - by rewrite Hperm, Hfst.
  - rewrite Hperm. by apply Forall2_zip_diag.
Qed.
End split_facts.

(** ** The sizes of the splits *)

Section size_facts.
Context {RND : Random}.

Lemma sum_three a b c : sum [a; b; c] = a + b + c.
Proof. unfold sum. simpl. lia. Qed.

Lemma int_true_divide_ok a b :
  b ≠ 0 → Z.abs a < 2 ^ 1023 * Z.abs b → ∃ n, int_true_divide a b = Ok n.
Proof.
  intros Hb Ha. destruct (true_divide_ok a b Hb Ha) as [f Hf].
  exists (Float.to_int f). unfold int_true_divide. by rewrite Hf.
Qed.

(** The splitter returns as soon as the vector has two entries, its sum is
    not zero and the two quotients fit in a float. *)
Lemma split_shuffled_ok {A} (l : list A) ratio r0 r1 :
  ratio !! 0%nat = Some r0 → ratio !! 1%nat = Some r1 →
  sum ratio ≠ 0 →
  Z.abs (Z.of_nat (length l) * r0) < 2 ^ 1023 * Z.abs (sum ratio) →
  Z.abs (Z.of_nat (length l) * r1) < 2 ^ 1023 * Z.abs (sum ratio) →
  ∃ ds, split_shuffled l ratio = Ok ds.
Proof.
  intros H0 H1 Hs Hb0 Hb1. unfold split_shuffled, take_split.
  apply getitem_Ok in H0, H1. rewrite H0. simpl.
  destruct (int_true_divide_ok _ _ Hs Hb0) as [n0 ->]. simpl.
  rewrite H1. simpl.
  destruct (int_true_divide_ok _ _ Hs Hb1) as [n1 ->]. simpl.
  by eexists.
Qed.

Lemma split_shuffled_sizes {A} (l : list A) r_train r_valid r_test :
  let N := Z.of_nat (length l) in
  let tot := sum [r_train; r_valid; r_test] in
  0 ≤ r_train → 0 ≤ r_valid → 0 ≤ r_test → 0 < tot →
  N * r_train < 2 ^ 53 → N * r_valid < 2 ^ 53 →
  ∃ ds, split_shuffled l [r_train; r_valid; r_test] = Ok ds
    ∧ train ds = take (Z.to_nat (N * r_train / tot)) l
    ∧ valid ds = take (Z.to_nat (N * r_valid / tot))
                   (drop (Z.to_nat (N * r_train / tot)) l)
    ∧ Z.of_nat (length (train ds)) = N * r_train / tot
    ∧ Z.of_nat (length (valid ds)) = N * r_valid / tot
    ∧ Z.of_nat (length (test ds))
      = N - Z.of_nat (length (train ds)) - Z.of_nat (length (valid ds)).
Proof.
  intros N tot Ht Hv He Htot Hbt Hbv.
  unfold split_shuffled, take_split. fold N. fold tot. simpl.
  rewrite !int_true_divide_floor by lia. simpl.
  assert (0 ≤ N * r_train / tot) as Hqt by (apply Z.div_pos; lia).
  assert (0 ≤ N * r_valid / tot) as Hqv by (apply Z.div_pos; lia).
  pose proof (Z.mul_div_le (N * r_train) tot Htot) as Hmt.
  pose proof (Z.mul_div_le (N * r_valid) tot Htot) as Hmv.
  set (qt := N * r_train / tot) in *. set (qv := N * r_valid / tot) in *.
  assert (tot = r_train + r_valid + r_test) as Hsum by apply sum_three.
  assert (qt + qv ≤ N) as Hle by nia.
  eexists. split; [done|]. simpl.
  unfold slice_to, del_slice_to. rewrite !slice_stop_nonneg by done.
  repeat split; rewrite ?length_take, ?length_drop; fold N; lia.
Qed.
End size_facts.

(** ** The splitter: partition and sizes *)

(** C1. Whatever the ratio vector, the three sequences that [split_sets]
    returns are the records of three groups of keys of the mapping; the
    groups are disjoint, without repetition, and together they are the keys
    of the mapping: every record is in exactly one split.  And the splitter
    does return for a mapping of non-empty entries and a vector of three
    entries, none negative, of positive sum. *)
Theorem split_sets_partition {RND : Random} {A} (data_dict : pydict nat (list A))
    (split_ratio : list Z) (g : rng_state) :
  NoDup (keys data_dict) →
  (nonempty_entries data_dict → length split_ratio = 3%nat →
   Forall (Z.le 0) split_ratio → 0 < sum split_ratio →
   Z.of_nat (length data_dict) < 2 ^ 63 →
   ∃ ds, (split_sets data_dict split_ratio g).1 = Ok ds)
  ∧ (∀ ds, (split_sets data_dict split_ratio g).1 = Ok ds →
     ∃ ktr kva kte,
       Forall2 (record_of data_dict) ktr (train ds)
       ∧ Forall2 (record_of data_dict) kva (valid ds)
       ∧ Forall2 (record_of data_dict) kte (test ds)
       ∧ ktr ++ kva ++ kte ≡ₚ keys data_dict
       ∧ NoDup (ktr ++ kva ++ kte)
       ∧ (∀ a, a ∈ train ds ++ valid ds ++ test ds ↔
               ∃ key, key ∈ keys data_dict ∧ record_of data_dict key a)).
Proof.
  intros Hnodup. split.
  - intros Hne Hlen Hpos Hsum HN. unfold split_sets.
    destruct (collect_ok data_dict (keys data_dict) Hne) as [l0 Hc]; [done|].
    rewrite Hc. destruct (shuffle l0 g) as [l g'] eqn:Hsh. simpl.
    assert (length l = length data_dict) as Hl.
    { pose proof (length_shuffle l0 g) as Hs. rewrite Hsh in Hs. simpl in Hs.
      rewrite Hs, (length_collect _ _ _ Hc). unfold keys. apply length_fmap. }
    destruct split_ratio as [|r0 [|r1 [|r2 [|]]]]; simplify_eq/=.
    apply Forall_cons in Hpos as [H0 Hpos].
    apply Forall_cons in Hpos as [H1 Hpos].
    apply Forall_cons in Hpos as [H2 _].
    rewrite sum_three in Hsum.
    assert (2 ^ 63 ≤ 2 ^ 1023) as Hbig by (apply Z.pow_le_mono_r; lia).
    set (X := 2 ^ 1023) in *. set (Y := 2 ^ 63) in *.
    apply (split_shuffled_ok l _ r0 r1); rewrite ?sum_three, ?Hl;
      [done|done|lia|..];
      rewrite !Z.abs_eq by lia; nia.
  - intros ds Hds.
    destruct (split_sets_pairs _ _ _ _ Hds) as (ps & -> & Hkeys & HR).
    exists (fst <$> train ps), (fst <$> valid ps), (fst <$> test ps).
    pose proof HR as Hall. rewrite Forall_forall in Hall.
    rewrite !Forall_app in HR. destruct HR as (Htr & Hva & Hte).
    rewrite !fmap_app in Hkeys. simpl.
    repeat split.
    + apply Forall2_fmap, Forall_Forall2_diag, Htr.
    + apply Forall2_fmap, Forall_Forall2_diag, Hva.
    + apply Forall2_fmap, Forall_Forall2_diag, Hte.
    + done.
    + by rewrite Hkeys.
    + rewrite <- !fmap_app. intros Ha.
      apply list_elem_of_fmap in Ha as ([k a'] & -> & Hin).
      exists k. split; [|apply (Hall _ Hin)].
      rewrite <- Hkeys, <- !fmap_app. apply list_elem_of_fmap.
      by exists (k, a').
    + intros (k & Hk & Hrec). rewrite <- !fmap_app.
      rewrite <- Hkeys, <- !fmap_app in Hk.
      apply list_elem_of_fmap in Hk as ([k' a'] & -> & Hin).
      specialize (Hall _ Hin). simpl in *.
      destruct Hrec as (l1 & Hl1 & Ha1), Hall as (l2 & Hl2 & Ha2).
      simplify_eq. apply list_elem_of_fmap. by exists (k', a').
Qed.

Lemma split_sets_partition_witness :
  NoDup (keys (Fixture.numbered 10))
  ∧ nonempty_entries (Fixture.numbered 10)
  ∧ ∃ ds, (split_sets (RND := Fixture.lcg) (Fixture.numbered 10) [80; 10; 10]
             (random_seed 12)).1 = Ok ds.
Proof.
  assert (NoDup (keys (Fixture.numbered 10))) as Hnodup
    by (apply (bool_decide_unpack _); vm_compute; exact I).
  assert (nonempty_entries (Fixture.numbered 10)) as Hne
    by (apply (bool_decide_unpack _); vm_compute; exact I).
  split; [exact Hnodup|]. split; [exact Hne|].
  apply (split_sets_partition (RND := Fixture.lcg) (Fixture.numbered 10)
           [80; 10; 10] (random_seed 12) Hnodup).
  - exact Hne.
  - reflexivity.
  - apply (bool_decide_unpack _); vm_compute; exact I.
  - vm_compute; reflexivity.
  - vm_compute; reflexivity.
Defined.




(** The slice [wav_list[0:n]] with a negative [n], for the vector
    [[-1; 0; 11]] and twenty records. *)
Example split_sets_negative_ratio :
  ∃ ds, (split_sets (RND := Fixture.lcg) (Fixture.numbered 20) [-1; 0; 11]
           (random_seed 12)).1 = Ok ds
    ∧ length (train ds) = 18%nat ∧ length (valid ds) = 0%nat
    ∧ length (test ds) = 2%nat.
Proof. eexists. vm_compute. repeat split. Qed.

(** ** Determinism *)

(** The splitter alone depends on the state of the generator. *)
Example split_sets_depends_on_state :
  (split_sets (RND := Fixture.lcg) (Fixture.numbered 4) [80; 10; 10] 1%Z).1
  ≠ (split_sets (RND := Fixture.lcg) (Fixture.numbered 4) [80; 10; 10] 2%Z).1.
Proof. vm_compute. intros [=]. Qed.

(** C3. Two runs of [prepare_data] on the same files with the same seed
    compute the same partition and leave the same files and the same
    generator state, in whatever state the generator was before each run:
    the shuffle is the one of the state [random_seed seed]; the seed is 12
    when the caller gives none. *)
Theorem prepare_data_deterministic {RND : Random} {OSI : OS}
    (data_original path_txt_info save_json_train save_json_valid
       save_json_test : str) (split_ratio : list Z) (seed : Z)
    (g0 g0' : rng_state) (out : outputs) :
  seed_and_split data_original path_txt_info split_ratio seed g0
  = seed_and_split data_original path_txt_info split_ratio seed g0'
  ∧ (∀ info_dict, transform_data data_original path_txt_info = Ok info_dict →
       seed_and_split data_original path_txt_info split_ratio seed g0
       = split_sets info_dict split_ratio (random_seed seed))
  ∧ prepare_data data_original path_txt_info save_json_train save_json_valid
      save_json_test split_ratio seed (mkWorld g0 out)
    = prepare_data data_original path_txt_info save_json_train save_json_valid
        save_json_test split_ratio seed (mkWorld g0' out)
  ∧ prepare_data_default data_original path_txt_info save_json_train
      save_json_valid save_json_test (mkWorld g0 out)
    = prepare_data data_original path_txt_info save_json_train save_json_valid
        save_json_test [80; 10; 10] 12 (mkWorld g0' out).
Proof.
  split_and!; try reflexivity.
  intros info_dict Ht. unfold seed_and_split. by rewrite Ht.
Qed.

(** ** The ratio vector is not checked *)

(** C4, as amended. The splitter checks nothing about the ratio vector: it
    always shuffles first, and the generator has advanced whether it fails
    or not.  After the shuffle an empty vector raises [IndexError], a vector
    that is not empty and sums to zero raises [ZeroDivisionError], a vector
    of one entry that is not zero raises [IndexError], and every vector of
    two entries or more whose sum is not zero (and whose quotients fit in a
    float) is accepted. *)
Theorem split_sets_ratio_unchecked {RND : Random} {A}
    (data_dict : pydict nat (list A)) (split_ratio : list Z) (g : rng_state) :
  nonempty_entries data_dict →
  ∃ wav_list0,
    collect data_dict (keys data_dict) = Ok wav_list0
    ∧ (split_sets data_dict split_ratio g).2 = (shuffle wav_list0 g).2
    ∧ (split_ratio = [] →
       (split_sets data_dict split_ratio g).1 = Raise IndexError)
    ∧ (split_ratio ≠ [] → sum split_ratio = 0 →
       (split_sets data_dict split_ratio g).1 = Raise ZeroDivisionError)
    ∧ (∀ r0, split_ratio = [r0] → r0 ≠ 0 →
       Z.of_nat (length data_dict) < 2 ^ 1023 →
       (split_sets data_dict split_ratio g).1 = Raise IndexError)
    ∧ (∀ r0 r1 rest, split_ratio = r0 :: r1 :: rest → sum split_ratio ≠ 0 →
       Z.abs (Z.of_nat (length data_dict) * r0) < 2 ^ 1023 * Z.abs (sum split_ratio) →
       Z.abs (Z.of_nat (length data_dict) * r1) < 2 ^ 1023 * Z.abs (sum split_ratio) →
       ∃ ds, (split_sets data_dict split_ratio g).1 = Ok ds).
Proof.
  intros Hne.
  destruct (collect_ok data_dict (keys data_dict) Hne) as [l0 Hc]; [done|].
  exists l0. split; [done|]. unfold split_sets. rewrite Hc.
  destruct (shuffle l0 g) as [l g'] eqn:Hsh. simpl.
  assert (length l = length data_dict) as Hl.
  { pose proof (length_shuffle l0 g) as Hs. rewrite Hsh in Hs. simpl in Hs.
    rewrite Hs, (length_collect _ _ _ Hc). unfold keys. apply length_fmap. }
  split_and!; [done|..].
  - by intros ->.
  - intros Hnil Hsum. destruct split_ratio as [|r0 rest]; [done|].
    unfold split_shuffled, take_split. simpl.
    unfold int_true_divide, Float.true_divide. by rewrite Hsum.
  - intros r0 -> Hr0 HN. unfold split_shuffled, take_split. simpl.
    destruct (int_true_divide_ok (Z.of_nat (length l) * r0) (sum [r0]))
      as [n ->]; [unfold sum; simpl; lia| |done].
    unfold sum. simpl. rewrite Hl.
    set (X := 2 ^ 1023) in *. nia.
  - intros r0 r1 rest -> Hsum Hb0 Hb1.
    apply (split_shuffled_ok l _ r0 r1); rewrite ?Hl; done.
Qed.

Lemma split_sets_ratio_unchecked_witness :
  ∃ wav_list0,
    collect (Fixture.numbered 3) (keys (Fixture.numbered 3)) = Ok wav_list0
    ∧ (split_sets (RND := Fixture.lcg) (Fixture.numbered 3) [0; 0; 0]
         (random_seed 12)).1 = Raise ZeroDivisionError.
Proof.
  destruct (split_sets_ratio_unchecked (RND := Fixture.lcg)
              (Fixture.numbered 3) [0; 0; 0] (random_seed 12))
    as (l0 & Hc & _ & _ & Hzero & _).
  - apply (bool_decide_unpack _); vm_compute; exact I.
  - exists l0. split; [exact Hc|]. apply Hzero; [discriminate|reflexivity].
Defined.

(** C4 fails as stated: a vector of two entries is accepted, and the vector
    [[0; 0; 0]] fails only after the shuffle has advanced the generator. *)
Lemma split_sets_invalid_ratio_counterexample :
  (split_sets (RND := Fixture.lcg) (Fixture.numbered 3) [1; 1]
     (random_seed 12)).1 = Ok (mkSplit [2%nat] [1%nat] [0%nat])
  ∧ (split_sets (RND := Fixture.lcg) (Fixture.numbered 3) [0; 0; 0]
       (random_seed 12)).1 = Raise ZeroDivisionError
  ∧ (split_sets (RND := Fixture.lcg) (Fixture.numbered 3) [0; 0; 0]
       (random_seed 12)).2 ≠ random_seed 12.
Proof. vm_compute. split_and!; [reflexivity..|intros [=]]. Qed.

(** ** Whitespace *)

Section whitespace.
Implicit Types x w t rest : str.

Lemma split_blank w : Forall (λ c, is_space c = true) w → split w = [].
Proof. induction 1 as [|c w Hc _ IH]; simpl; [done|]. by rewrite Hc. Qed.

Lemma split_blank_l w x :
  Forall (λ c, is_space c = true) w → split (w ++ x) = split x.
Proof. induction 1 as [|c w Hc _ IH]; simpl; [done|]. by rewrite Hc. Qed.

Lemma split_blank_r x w :
  Forall (λ c, is_space c = true) w → split (x ++ w) = split x.
Proof.
  intros Hw. induction x as [|c x IH]; [by apply split_blank|].
  simpl. destruct (is_space c); [done|].
  destruct x as [|c' x]; simpl in *.
  - destruct Hw as [|c' w Hc' Hw]; [done|]. rewrite Hc'.
    f_equal. apply (split_blank (c' :: w)). by constructor.
  - by rewrite IH.
Qed.

Lemma lstrip_blank x :
  ∃ w, Forall (λ c, is_space c = true) w ∧ x = w ++ lstrip x.
Proof.
  induction x as [|c x (w & Hw & IH)]; [by exists []|]. simpl.
  destruct (is_space c) eqn:Hc.
  - exists (c :: w). split; [by constructor|]. simpl. by f_equal.
  - by exists [].
Qed.

Lemma rstrip_blank x :
  ∃ w, Forall (λ c, is_space c = true) w ∧ x = rstrip x ++ w.
Proof.
  destruct (lstrip_blank (reverse x)) as (w & Hw & Hx).
  exists (reverse w). split; [by apply Forall_reverse|].
  unfold rstrip. rewrite <- reverse_app, <- Hx. by rewrite reverse_involutive.
Qed.

(** Trimming changes no token. *)
Lemma split_strip x : split (strip x) = split x.
Proof.
  unfold strip.
  destruct (rstrip_blank (lstrip x)) as (w & Hw & Hx).
  destruct (lstrip_blank x) as (w' & Hw' & Hx').
  rewrite Hx' at 2. rewrite (split_blank_l _ _ Hw').
  rewrite Hx at 2. by rewrite (split_blank_r _ _ Hw).
Qed.

Lemma split_cons_token c x :
  is_space c = false →
  split (c :: x)
  = match x with
    | [] => [[c]]
    | c' :: _ =>
      if is_space c' then [c] :: split x
      else match split x with
           | tok :: toks => (c :: tok) :: toks
           | [] => [[c]]
           end
    end.
Proof. intros Hc. simpl. rewrite Hc. by destruct x. Qed.

(** A run of characters that are not whitespace, followed by the end of
    the line or by whitespace, is one token. *)
Lemma split_token t rest :
  t ≠ [] → Forall (λ c, is_space c = false) t →
  match rest with [] => True | c :: _ => is_space c = true end →
  split (t ++ rest) = t :: split rest.
Proof.
  intros Hne Ht Hrest. induction Ht as [|c t Hc Ht IH]; [done|].
  rewrite <- app_comm_cons, split_cons_token by done.
  destruct t as [|c' t].
  - rewrite app_nil_l. destruct rest as [|c' rest]; [done|]. by rewrite Hrest.
  - rewrite IH by done. inversion_clear Ht as [|?? Hc' Ht'].
    rewrite <- app_comm_cons. by rewrite Hc'.
Qed.
End whitespace.

(** ** The metadata loader *)

Lemma load_row_Ok i a b c rest :
  split (strip i) = a :: b :: c :: rest → load_row i = Ok (a, b, c).
Proof. intros Hi. unfold load_row. by rewrite Hi. Qed.

Lemma load_row_short i :
  (length (split (strip i)) < 3)%nat → load_row i = Raise IndexError.
Proof.
  unfold load_row. destruct (split (strip i)) as [|a [|b [|c rest]]]; simpl;
    try done; lia.
Qed.

Lemma load_row_long i :
  (3 ≤ length (split (strip i)))%nat →
  ∃ row rest, load_row i = Ok row
    ∧ split (strip i) = row.1.1 :: row.1.2 :: row.2 :: rest.
Proof.
  intros Hlen. destruct (split (strip i)) as [|a [|b [|c rest]]] eqn:Hi;
    simpl in Hlen; try lia.
  exists (a, b, c), rest. split; [by eapply load_row_Ok|done].
Qed.

Lemma load_rows_ok f :
  Forall (λ i, (3 ≤ length (split (strip i)))%nat) f →
  ∃ rows, load_rows f = Ok rows
    ∧ Forall2 (λ i row, ∃ rest,
         split (strip i) = row.1.1 :: row.1.2 :: row.2 :: rest) f rows.
Proof.
  induction 1 as [|i f Hi _ (rows & Hrows & IH)]; simpl.
  - exists []. split; [done|constructor].
  - destruct (load_row_long i Hi) as (row & rest & -> & Hrow). simpl.
    rewrite Hrows. simpl. exists (row :: rows). split; [done|].
    constructor; [by exists rest|done].
Qed.

Lemma load_rows_abort f :
  Exists (λ i, (length (split (strip i)) < 3)%nat) f →
  load_rows f = Raise IndexError.
Proof.
  induction 1 as [i f Hi|i f _ IH]; simpl.
  - by rewrite load_row_short.
  - destruct (Nat.lt_ge_cases (length (split (strip i))) 3) as [Hs|Hl].
    + by rewrite load_row_short.
    + destruct (load_row_long i Hl) as (row & rest & -> & _). simpl.
      by rewrite IH.
Qed.

(** C5. Each line is trimmed and split on whitespace; a line with three
    tokens or more gives the row of its first three tokens, whatever
    follows; a line with fewer than three tokens aborts the whole load with
    the [IndexError] of the missing token (the MalformedRow of the
    specification). *)
Theorem load_in4_rows {OSI : OS} (path_txt_info : str) (f : list str) :
  read_lines path_txt_info = Ok f →
  (Forall (λ i, (3 ≤ length (split (strip i)))%nat) f →
   ∃ rows, load_in4 path_txt_info = Ok rows
     ∧ Forall2 (λ i row, ∃ rest,
          split (strip i) = row.1.1 :: row.1.2 :: row.2 :: rest) f rows)
  ∧ (Exists (λ i, (length (split (strip i)) < 3)%nat) f →
     load_in4 path_txt_info = Raise IndexError)
  ∧ (∀ w0 a w1 b w2 c rest,
       blank w0 → token a → blank w1 → w1 ≠ [] → token b →
       blank w2 → w2 ≠ [] → token c → ends_token rest →
       split (strip (w0 ++ a ++ w1 ++ b ++ w2 ++ c ++ rest))
       = a :: b :: c :: split rest
       ∧ load_row (w0 ++ a ++ w1 ++ b ++ w2 ++ c ++ rest) = Ok (a, b, c)).
Proof.
  intros Hf. unfold load_in4. rewrite Hf. simpl. split_and!.
  - apply load_rows_ok.
  - apply load_rows_abort.
  - intros w0 a w1 b w2 c rest Hw0 [Ha Ha'] Hw1 Hn1 [Hb Hb'] Hw2 Hn2
      [Hc Hc'] Hrest.
    assert (split (strip (w0 ++ a ++ w1 ++ b ++ w2 ++ c ++ rest))
            = a :: b :: c :: split rest) as Hs.
    { rewrite split_strip, (split_blank_l _ _ Hw0).
      rewrite (split_token a) by (by destruct Hw1 as [|c1 w1 Hc1 Hw1]).
      rewrite (split_blank_l _ _ Hw1).
      rewrite (split_token b) by (by destruct Hw2 as [|c2 w2 Hc2 Hw2]).
      rewrite (split_blank_l _ _ Hw2).
      by rewrite (split_token c). }
    split; [done|]. by eapply load_row_Ok.
Qed.

Lemma load_in4_rows_witness :
  ∃ rows, load_in4 (OSI := Fixture.mem_os) (lit "meta.tsv") = Ok rows
    ∧ length rows = 4%nat.
Proof.
  destruct (load_in4_rows (OSI := Fixture.mem_os) (lit "meta.tsv")
              Fixture.meta_lines eq_refl) as (Hok & _ & _).
  destruct Hok as (rows & Hrows & Hall).
  - apply (bool_decide_unpack _); vm_compute; exact I.
  - exists rows. split; [exact Hrows|].
    symmetry. exact (Forall2_length _ _ _ Hall).
Defined.

(** ** The utterance id *)

Section uttid.
Implicit Types x y name dir stem ext : str.

Lemma split_on_nonempty sep x : split_on sep x ≠ [].
Proof.
  destruct x as [|c x]; simpl; [done|].
  destruct (decide (c = sep)); [done|]. by destruct (split_on sep x).
Qed.

Lemma split_on_app sep x y :
  split_on sep (x ++ sep :: y) = split_on sep x ++ split_on sep y.
Proof.
  induction x as [|c x IH]; simpl.
  - by rewrite decide_True.
  - destruct (decide (c = sep)); [by rewrite IH|].
    rewrite IH. pose proof (split_on_nonempty sep x).
    by destruct (split_on sep x).
Qed.

Lemma split_on_none sep x : sep ∉ x → split_on sep x = [x].
Proof.
  induction x as [|c x IH]; simpl; [done|].
  intros Hx. apply not_elem_of_cons in Hx as [Hc Hx].
  rewrite decide_False by done. by rewrite IH.
Qed.


Lemma uttid_of_path dir name :
  "/"%char ∉ name → uttid_of (dir ++ "/"%char :: name) = drop_last 4 name.
Proof.
  intros Hn. unfold uttid_of.
  by rewrite split_on_app, (split_on_none _ name), last_snoc.
Qed.



End uttid.




(** ** Dictionaries *)

Section dict_facts.
Context {K V : Type} `{EqDecision K}.
Implicit Types (d : pydict K V) (k : K) (v : V) (kvs : list (K * V)).

Lemma dict_get_set_eq d k v : dict_get (dict_set d k v) k = Some v.
Proof.
  induction d as [|[k' v'] d IH]; simpl.
  - by rewrite decide_True.
  - destruct (decide (k = k')) as [->|Hne]; simpl.
    + by rewrite decide_True.
    + by rewrite decide_False.
Qed.

Lemma dict_get_set_ne d k k' v :
  k ≠ k' → dict_get (dict_set d k v) k' = dict_get d k'.
Proof.
  intros Hne. induction d as [|[k1 v1] d IH]; simpl.
  - by rewrite decide_False.
  - destruct (decide (k = k1)) as [->|Hne1]; simpl.
    + by rewrite !decide_False.
    + by rewrite IH.
Qed.

Lemma dict_get_None d k : dict_get d k = None ↔ k ∉ keys d.
Proof.
  induction d as [|[k' v'] d IH]; simpl.
  - split; [intros _; apply not_elem_of_nil|done].
  - rewrite not_elem_of_cons. destruct (decide (k = k')) as [->|Hne].
    + split; [done|by intros [? _]].
    + rewrite IH. split; [done|by intros [_ ?]].
Qed.

Lemma dict_set_fresh d k v : k ∉ keys d → dict_set d k v = d ++ [(k, v)].
Proof.
  induction d as [|[k' v'] d IH]; simpl; [done|].
  rewrite not_elem_of_cons. intros [Hne Hk].
  rewrite decide_False by done. by rewrite IH.
Qed.

Lemma dict_set_last d k v v' :
  k ∉ keys d → dict_set (d ++ [(k, v)]) k v' = d ++ [(k, v')].
Proof.
  induction d as [|[k1 v1] d IH]; simpl.
  - by rewrite decide_True.
  - rewrite not_elem_of_cons. intros [Hne Hk].
    rewrite decide_False by done. by rewrite IH.
Qed.

Lemma dict_get_last d k v : k ∉ keys d → dict_get (d ++ [(k, v)]) k = Some v.
Proof.
  induction d as [|[k1 v1] d IH]; simpl.
  - by rewrite decide_True.
  - rewrite not_elem_of_cons. intros [Hne Hk].
    rewrite decide_False by done. by apply IH.
Qed.

Lemma keys_dict_set d k v : keys (dict_set d k v) = add_key (keys d) k.
Proof.
  unfold add_key. induction d as [|[k' v'] d IH]; simpl.
  - done.
  - destruct (decide (k = k')) as [->|Hne]; simpl.
    + rewrite decide_True; [done|left].
    + unfold keys in *. rewrite IH.
      destruct (decide (k ∈ d.*1)) as [Hin|Hnin].
      * rewrite decide_True; [done|by right].
      * rewrite decide_False; [done|]. by rewrite not_elem_of_cons.
Qed.

Lemma keys_assign_all d kvs :
  keys (assign_all d kvs) = fold_left add_key kvs.*1 (keys d).
Proof.
  revert d. induction kvs as [|[k v] kvs IH]; intros d; simpl; [done|].
  unfold assign_all in *. simpl. by rewrite IH, keys_dict_set.
Qed.

Lemma dict_get_assign_other d kvs k :
  k ∉ kvs.*1 → dict_get (assign_all d kvs) k = dict_get d k.
Proof.
  revert d. induction kvs as [|[k' v'] kvs IH]; intros d; simpl; [done|].
  rewrite not_elem_of_cons. intros [Hne Hk]. unfold assign_all in *. simpl.
  rewrite IH by done. by apply dict_get_set_ne.
Qed.

(** The last assignment to a key is the one that stays. *)
Lemma dict_get_assign_last d pre post k v :
  k ∉ post.*1 → dict_get (assign_all d (pre ++ (k, v) :: post)) k = Some v.
Proof.
  intros Hpost. unfold assign_all. rewrite fold_left_app. simpl.
  fold (assign_all (dict_set (fold_left (λ d kv, dict_set d kv.1 kv.2) pre d)
                      k v) post).
  rewrite dict_get_assign_other by done. apply dict_get_set_eq.
Qed.

Lemma assign_all_fresh d kvs :
  NoDup kvs.*1 → (∀ k, k ∈ kvs.*1 → k ∉ keys d) →
  assign_all d kvs = d ++ kvs.
Proof.
  revert d. induction kvs as [|[k v] kvs IH]; intros d Hnd Hfresh; simpl.
  - by rewrite app_nil_r.
  - simpl in Hnd. apply NoDup_cons in Hnd as [Hk Hnd].
    unfold assign_all in *. simpl.
    rewrite dict_set_fresh by (apply Hfresh; left).
    rewrite IH; [by rewrite <- app_assoc|done|].
    intros k' Hk'. unfold keys. rewrite fmap_app. simpl.
    rewrite not_elem_of_app, not_elem_of_cons. split_and!.
    + apply Hfresh. by right.
    + intros ->. done.
    + apply not_elem_of_nil.
Qed.
End dict_facts.

Section key_order.
Context {K : Type} `{EqDecision K}.
Implicit Types (ks l : list K) (k : K).

Lemma elem_of_add_key ks k x : x ∈ add_key ks k ↔ x ∈ ks ∨ x = k.
Proof.
  unfold add_key. destruct (decide (k ∈ ks)).
  - split; [by left|by intros [?| ->]].
  - rewrite elem_of_app, list_elem_of_singleton. done.
Qed.

Lemma NoDup_add_key ks k : NoDup ks → NoDup (add_key ks k).
Proof.
  intros Hnd. unfold add_key. destruct (decide (k ∈ ks)); [done|].
  apply NoDup_app. split_and!; [done| |apply NoDup_singleton].
  intros x Hx ->%list_elem_of_singleton. done.
Qed.

Lemma elem_of_fold_add_key l ks x :
  x ∈ fold_left add_key l ks ↔ x ∈ ks ∨ x ∈ l.
Proof.
  revert ks. induction l as [|k l IH]; intros ks; simpl.
  - rewrite elem_of_nil. tauto.
  - rewrite IH, elem_of_add_key, elem_of_cons. tauto.
Qed.

Lemma NoDup_fold_add_key l ks : NoDup ks → NoDup (fold_left add_key l ks).
Proof.
  revert ks. induction l as [|k l IH]; intros ks Hnd; simpl; [done|].
  by apply IH, NoDup_add_key.
Qed.

Lemma fold_add_key_fresh l ks :
  NoDup l → (∀ k, k ∈ l → k ∉ ks) → fold_left add_key l ks = ks ++ l.
Proof.
  revert ks. induction l as [|k l IH]; intros ks Hnd Hfresh; simpl.
  - by rewrite app_nil_r.
  - apply NoDup_cons in Hnd as [Hk Hnd]. unfold add_key at 2.
    rewrite decide_False by (apply Hfresh; left).
    rewrite IH; [by rewrite <- app_assoc|done|].
    intros k' Hk'. rewrite not_elem_of_app, list_elem_of_singleton. split.
    + apply Hfresh. by right.
    + by intros ->.
Qed.

Lemma insertion_order_NoDup l : NoDup l → insertion_order l = l.
Proof.
  intros Hnd. unfold insertion_order. rewrite fold_add_key_fresh; [done..|].
  intros k _. apply not_elem_of_nil.
Qed.
End key_order.

(** ** The manifest writer *)

Section manifest_facts.
Context {OSI : OS}.

Lemma entry_of_decoded obj n :
  read_audio (path_wav obj) = Ok n → Z.of_N n < 2 ^ 1023 →
  ∃ e, entry_of obj = Ok e ∧ entry_for obj n e.
Proof.
  intros Hread Hn. unfold entry_of. rewrite Hread. simpl.
  destruct (true_divide_ok (Z.of_N n) SAMPLERATE) as [f Hf].
  - done.
  - unfold SAMPLERATE. set (X := 2 ^ 1023) in *. lia.
  - rewrite Hf. simpl. eexists. split; [done|]. by split_and!.
Qed.

Lemma entries_decoded wav_list samples :
  decodes wav_list samples →
  ∃ es, Forall2 (λ obj e, entry_of obj = Ok e) wav_list es
    ∧ Forall2 (λ p e, entry_for p.1 p.2 e) (zip wav_list samples) es.
Proof.
  induction 1 as [|obj n wav_list samples [Hread Hn] _ (es & Hes & Hfor)].
  - exists []. split; constructor.
  - destruct (entry_of_decoded obj n Hread Hn) as (e & He & Hfe).
    exists (e :: es). split; simpl; by constructor.
Qed.

(** The loop is the list of its assignments. *)
Lemma fill_json_assign wav_list es json_dict :
  Forall2 (λ obj e, entry_of obj = Ok e) wav_list es →
  fill_json wav_list json_dict
  = Ok (assign_all json_dict (zip (uttids wav_list) es)).
Proof.
  intros Hes. revert json_dict.
  induction Hes as [|obj e wav_list es He _ IH]; intros json_dict; [done|].
  simpl. rewrite He. simpl. by rewrite IH.
Qed.

Lemma fst_zip_uttids wav_list es :
  Forall2 (λ obj e, entry_of obj = Ok e) wav_list es →
  (zip (uttids wav_list) es).*1 = uttids wav_list.
Proof.
  intros Hes%Forall2_length. apply fst_zip.
  unfold uttids. rewrite length_fmap. lia.
Qed.
End manifest_facts.

(** C8. When every file of the split decodes, the writer assigns, record
    after record, the entry of the record under its utterance id: the path,
    the float [n / 16000] for the [n] samples decoded, and the region
    label.  The keys of the mapping written stand in the order in which
    they were first assigned, which is the order of the records when their
    ids are distinct, and the mapping is then the list of the entries. *)
Theorem create_json_entries {OSI : OS} (wav_list : list AudioRecord)
    (samples : list N) (json_file_save : str) (out : outputs) :
  decodes wav_list samples →
  ∃ es json_dict,
    fill_json wav_list [] = Ok json_dict
    ∧ create_json wav_list json_file_save out
      = (if writable json_file_save
         then (Ok (), dict_set out json_file_save json_dict)
         else (Raise OSError, out))
    ∧ Forall2 (λ p e, entry_for p.1 p.2 e) (zip wav_list samples) es
    ∧ json_dict = assign_all [] (zip (uttids wav_list) es)
    ∧ keys json_dict = insertion_order (uttids wav_list)
    ∧ (NoDup (uttids wav_list) → json_dict = zip (uttids wav_list) es).
Proof.
  intros Hdec. destruct (entries_decoded _ _ Hdec) as (es & Hes & Hfor).
  pose proof (fill_json_assign wav_list es [] Hes) as Hfill.
  exists es, (assign_all [] (zip (uttids wav_list) es)). split_and!.
  - done.
  - unfold create_json. by rewrite Hfill.
  - done.
  - done.
  - by rewrite keys_assign_all, fst_zip_uttids.
  - intros Hnd. rewrite assign_all_fresh; [done|by rewrite fst_zip_uttids|].
    intros k _. apply not_elem_of_nil.
Qed.

(** C9. When every file of the split decodes and the destination can be
    written, the writer does not fail, whether or not utterance ids repeat:
    it returns, and the manifest that it writes at the destination has as
    keys the utterance ids of the split, each once, and under the id of a
    record the entry of the last record of the split that has this id. *)
Theorem create_json_last_write_wins {OSI : OS} (wav_list : list AudioRecord)
    (samples : list N) (json_file_save : str) (out : outputs) :
  decodes wav_list samples → writable json_file_save = true →
  ∃ es json_dict out',
    create_json wav_list json_file_save out = (Ok (), out')
    ∧ dict_get out' json_file_save = Some json_dict
    ∧ (∀ p, p ≠ json_file_save → dict_get out' p = dict_get out p)
    ∧ fill_json wav_list [] = Ok json_dict
    ∧ Forall2 (λ p e, entry_for p.1 p.2 e) (zip wav_list samples) es
    ∧ NoDup (keys json_dict)
    ∧ (∀ u, u ∈ keys json_dict ↔ u ∈ uttids wav_list)
    ∧ (∀ i j obj_i obj_j e_j,
         wav_list !! i = Some obj_i → wav_list !! j = Some obj_j →
         es !! j = Some e_j →
         uttid_of (path_wav obj_i) = uttid_of (path_wav obj_j) →
         (∀ k obj_k, (j < k)%nat → wav_list !! k = Some obj_k →
            uttid_of (path_wav obj_k) ≠ uttid_of (path_wav obj_j)) →
         dict_get json_dict (uttid_of (path_wav obj_i)) = Some e_j).
Proof.
  intros Hdec Hw. destruct (entries_decoded _ _ Hdec) as (es & Hes & Hfor).
  pose proof (fill_json_assign wav_list es [] Hes) as Hfill.
  exists es, (assign_all [] (zip (uttids wav_list) es)).
  exists (dict_set out json_file_save
            (assign_all [] (zip (uttids wav_list) es))).
  split_and!.
  - unfold create_json. by rewrite Hfill, Hw.
  - apply dict_get_set_eq.
  - intros p Hp. by apply dict_get_set_ne.
  - done.
  - done.
  - rewrite keys_assign_all. apply NoDup_fold_add_key, NoDup_nil_2.
  - intros u. rewrite keys_assign_all, elem_of_fold_add_key, fst_zip_uttids
      by done. simpl. rewrite elem_of_nil. tauto.
  - intros i j obj_i obj_j e_j Hi Hj Hej Hsame Hlast. rewrite Hsame.
    set (u := uttid_of (path_wav obj_j)) in *.
    set (kvs := zip (uttids wav_list) es).
    assert (kvs !! j = Some (u, e_j)) as Hkv.
    { unfold kvs. apply lookup_zip_with_Some. exists u, e_j. split_and!; try done.
      unfold uttids. by rewrite list_lookup_fmap, Hj. }
    rewrite <- (take_drop_middle kvs j (u, e_j) Hkv).
    apply dict_get_assign_last.
    intros Hin. apply list_elem_of_fmap in Hin as ([u' e'] & Hu & Hin).
    simpl in Hu. subst u'.
    apply list_elem_of_lookup in Hin as [k Hk]. rewrite lookup_drop in Hk.
    unfold kvs in Hk. apply lookup_zip_with_Some in Hk
      as (u' & e'' & [= <- <-] & Hu' & _).
    unfold uttids in Hu'. rewrite list_lookup_fmap in Hu'.
    destruct (wav_list !! (S j + k)%nat) as [obj_k|] eqn:Hobj; [|done].
    simpl in Hu'. injection Hu' as Hu'.
    by apply (Hlast (S j + k)%nat obj_k ltac:(lia) Hobj).
Qed.

(** ** The matcher *)

Section matcher_facts.
Context {OSI : OS}.
Implicit Types (row : MetadataRow) (rows : list MetadataRow).

Lemma scan_dir_no_entry root row names :
  row.1.1 ∉ names → scan_dir root row names = Ok [].
Proof.
  induction names as [|i names IH]; [done|].
  rewrite not_elem_of_cons. intros [Hne Hnames].
  cbn [scan_dir]. rewrite decide_False by done. simpl.
  by rewrite IH.
Qed.

Lemma scan_dir_entry root row names :
  NoDup names → row.1.1 ∈ names →
  scan_dir root row names = speaker_records root row.
Proof.
  induction 1 as [|i names Hi Hnd IH]; [by intros ?%elem_of_nil|].
  intros Hin. cbn [scan_dir].
  destruct (decide (i = row.1.1)) as [->|Hne].
  - rewrite scan_dir_no_entry by done.
    destruct (speaker_records root row) as [here|e]; simpl; [|done].
    by rewrite app_nil_r.
  - apply elem_of_cons in Hin as [?|Hin]; [done|].
    simpl. rewrite IH by done. by destruct (speaker_records root row).
Qed.

Lemma speaker_records_listed root row wavs :
  listdir (path_join root row.1.1) = Ok wavs →
  speaker_records root row = Ok (record_for root row <$> wavs).
Proof.
  intros Hl. unfold speaker_records. destruct row as [[id reg] sex].
  simpl in *. by rewrite Hl.
Qed.

Lemma row_records_pairs root names row :
  listdir root = Ok names → NoDup names →
  (row.1.1 ∈ names → ∃ wavs, listdir (path_join root row.1.1) = Ok wavs) →
  row_records root row = Ok (pair_records root names row).
Proof.
  intros Hroot Hnd Hdir. unfold row_records, pair_records. rewrite Hroot.
  simpl. destruct (decide (row.1.1 ∈ names)) as [Hin|Hnin].
  - rewrite scan_dir_entry by done. destruct (Hdir Hin) as [wavs Hw].
    rewrite (speaker_records_listed _ _ _ Hw). unfold files_of. by rewrite Hw.
  - by apply scan_dir_no_entry.
Qed.

Lemma rows_records_app root rows1 rows2 :
  rows_records root (rows1 ++ rows2)
  = (x ← rows_records root rows1; y ← rows_records root rows2; Ok (x ++ y)).
Proof.
  induction rows1 as [|row rows1 IH]; simpl.
  - by destruct (rows_records root rows2).
  - destruct (row_records root row) as [here|e]; simpl; [|done].
    rewrite IH. destruct (rows_records root rows1) as [x|e]; simpl; [|done].
    destruct (rows_records root rows2) as [y|e]; simpl; [|done].
    by rewrite app_assoc.
Qed.

Lemma rows_records_pairs root names rows :
  listdir root = Ok names → NoDup names →
  (∀ row, row ∈ rows → row.1.1 ∈ names →
     ∃ wavs, listdir (path_join root row.1.1) = Ok wavs) →
  rows_records root rows = Ok (rows ≫= pair_records root names).
Proof.
  intros Hroot Hnd. induction rows as [|row rows IH]; intros Hdir; [done|].
  simpl. rewrite (row_records_pairs root names row Hroot Hnd)
    by (apply Hdir; left).
  simpl. rewrite IH by (intros row' Hin; apply Hdir; by right). done.
Qed.
End matcher_facts.

(** C6, as amended. A metadata row whose speaker id is the name of no entry
    of the audio root, directory or plain file, contributes no record and
    raises nothing: the records of the table are those of the table without
    this row. *)
Theorem unmatched_row_skipped {OSI : OS} (path_to_dataWav : str)
    (names : list str) (row : MetadataRow) (pre post : list MetadataRow) :
  listdir path_to_dataWav = Ok names →
  row.1.1 ∉ names →
  row_records path_to_dataWav row = Ok []
  ∧ rows_records path_to_dataWav (pre ++ row :: post)
    = rows_records path_to_dataWav (pre ++ post).
Proof.
  intros Hroot Hnin.
  assert (row_records path_to_dataWav row = Ok []) as Hrow.
  { unfold row_records. rewrite Hroot. simpl. by apply scan_dir_no_entry. }
  split; [done|]. rewrite !rows_records_app. simpl. rewrite Hrow. simpl.
  destruct (rows_records path_to_dataWav pre) as [x|e]; simpl; [|done].
  by destruct (rows_records path_to_dataWav post).
Qed.

Lemma unmatched_row_skipped_witness :
  rows_records (OSI := Fixture.mem_os) (lit "data")
    [(lit "spk2", lit "central", lit "female");
     (lit "spk9", lit "south", lit "female");
     (lit "spk1", lit "north", lit "male")]
  = rows_records (OSI := Fixture.mem_os) (lit "data")
      [(lit "spk2", lit "central", lit "female");
       (lit "spk1", lit "north", lit "male")].
Proof.
  apply (unmatched_row_skipped (OSI := Fixture.mem_os) (lit "data")
           [lit "spk1"; lit "spk2"; lit "notes.txt"]
           (lit "spk9", lit "south", lit "female")
           [(lit "spk2", lit "central", lit "female")]
           [(lit "spk1", lit "north", lit "male")]).
  - reflexivity.
  - apply (bool_decide_unpack _); vm_compute; exact I.
Defined.

(** C6 fails as stated: the plain file [notes.txt] of the audio root is no
    subdirectory, and a row with this speaker id does raise: the matcher
    lists the entry of this name as if it were a directory. *)
Lemma unmatched_row_counterexample :
  ¬ subdirectory (OSI := Fixture.mem_os) (lit "data") (lit "notes.txt")
  ∧ rows_records (OSI := Fixture.mem_os) (lit "data")
      [(lit "notes.txt", lit "north", lit "male")] = Raise OSError.
Proof.
  split; [|by vm_compute].
  intros (names & wavs & _ & _ & Hl). by vm_compute in Hl.
Qed.

(** ** The mapping from positions to records *)

Section index_facts.
Context {OSI : OS}.

Lemma index_records_prefix (l : list AudioRecord) k :
  (k ≤ length l)%nat →
  fold_left (index_step l) (seq 0 k) []
  = zip (seq 0 k) ((λ r, [r]) <$> take k l).
Proof.
  induction k as [|k IH]; intros Hk; [done|].
  rewrite seq_S, fold_left_app, IH by lia. simpl.
  destruct (lookup_lt_is_Some_2 l k ltac:(lia)) as [r Hr].
  set (d := zip (seq 0 k) ((λ r, [r]) <$> take k l)).
  assert (k ∉ keys d) as Hfresh.
  { unfold keys, d. rewrite fst_zip.
    - rewrite elem_of_seq. lia.
    - rewrite length_seq, length_fmap, length_take. lia. }
  unfold index_step.
  rewrite (proj2 (dict_get_None d k) Hfresh).
  rewrite dict_set_fresh, dict_get_last, Hr, dict_set_last by done.
  rewrite (take_S_r l k r Hr), fmap_app. simpl.
  rewrite zip_with_app; [done|].
  rewrite length_seq, length_fmap, length_take. lia.
Qed.

(** Record [i] stands under key [i], alone in a list. *)
Lemma index_records_zip (l : list AudioRecord) :
  index_records l = zip (seq 0 (length l)) ((λ r, [r]) <$> l).
Proof.
  unfold index_records. rewrite index_records_prefix by done.
  by rewrite firstn_all.
Qed.

Lemma collect_cons_other {A} (d : pydict nat (list A)) k v ks :
  k ∉ ks → collect ((k, v) :: d) ks = collect d ks.
Proof.
  induction ks as [|k' ks IH]; [done|].
  rewrite not_elem_of_cons. intros [Hne Hks]. cbn [collect dict_get].
  rewrite decide_False by done. by rewrite IH.
Qed.

Lemma collect_zip {A} (ks : list nat) (l : list A) :
  NoDup ks → length ks = length l →
  collect (zip ks ((λ r, [r]) <$> l)) ks = Ok l.
Proof.
  intros Hnd. revert l.
  induction Hnd as [|k ks Hk Hnd IH]; intros [|r l] Hlen; simplify_eq/=;
    [done|].
  rewrite decide_True by done. simpl.
  rewrite collect_cons_other by done. by rewrite IH.
Qed.

Lemma collect_index_records (l : list AudioRecord) :
  collect (index_records l) (keys (index_records l)) = Ok l
  ∧ keys (index_records l) = seq 0 (length l).
Proof.
  rewrite index_records_zip.
  assert (keys (zip (seq 0 (length l)) ((λ r, [r]) <$> l))
          = seq 0 (length l)) as Hkeys.
  { unfold keys. apply fst_zip. by rewrite length_seq, length_fmap. }
  rewrite Hkeys. split; [|done].
  apply collect_zip; [apply NoDup_seq|apply length_seq].
Qed.
End index_facts.

(** ** Counting the records of a file *)

Section count_facts.
Context {OSI : OS}.

Lemma NoDup_bind_each {A B} (f : A → list B) (l : list A) x :
  NoDup (l ≫= f) → x ∈ l → NoDup (f x).
Proof.
  induction l as [|a l IH]; [by intros _ ?%elem_of_nil|].
  rewrite bind_cons, NoDup_app. intros (Ha & _ & Hl).
  intros [->|Hx]%elem_of_cons; [done|by apply IH].
Qed.

Lemma NoDup_bind_inj {A B} (f : A → list B) (l : list A) x1 x2 y :
  NoDup (l ≫= f) → x1 ∈ l → x2 ∈ l → y ∈ f x1 → y ∈ f x2 → x1 = x2.
Proof.
  induction l as [|a l IH]; [by intros _ ?%elem_of_nil|].
  rewrite bind_cons, NoDup_app. intros (Ha & Hdisj & Hl).
  intros [->|H1]%elem_of_cons [->|H2]%elem_of_cons Hy1 Hy2.
  - done.
  - destruct (Hdisj y Hy1). apply list_elem_of_bind. by exists x2.
  - destruct (Hdisj y Hy2). apply list_elem_of_bind. by exists x1.
  - by apply IH.
Qed.

Lemma count_absent {A} `{EqDecision A} (l : list A) x :
  x ∉ l → length (filter (λ q, q = x) l) = 0%nat.
Proof.
  induction l as [|a l IH]; [done|].
  rewrite not_elem_of_cons. intros [Hne Hx].
  rewrite filter_cons_False by done. by apply IH.
Qed.

Lemma count_once {A} `{EqDecision A} (l : list A) x :
  NoDup l → x ∈ l → length (filter (λ q, q = x) l) = 1%nat.
Proof.
  induction 1 as [|a l Ha Hnd IH]; [by intros ?%elem_of_nil|].
  intros [->|Hx]%elem_of_cons.
  - rewrite filter_cons_True by done. simpl. by rewrite count_absent.
  - rewrite filter_cons_False by (intros ->; done). by apply IH.
Qed.

Lemma count_record_for root row p (files : list str) :
  length (filter (λ r, path_wav r = p) (record_for root row <$> files))
  = length (filter (λ q, q = p) (full_path root row.1.1 <$> files)).
Proof.
  induction files as [|f files IH]; [done|].
  rewrite !fmap_cons.
  destruct (decide (full_path root row.1.1 f = p)) as [Heq|Hne].
  - rewrite !filter_cons_True by done. simpl. by rewrite IH.
  - by rewrite !filter_cons_False by done.
Qed.

(** A file of a speaker has as many records as the table has rows of this
    speaker. *)
Lemma count_pair_records root names rows s f :
  NoDup (audio_paths root names) → s ∈ names → f ∈ files_of root s →
  length (filter (λ r, path_wav r = full_path root s f)
            (rows ≫= pair_records root names))
  = length (filter (λ row, row.1.1 = s) rows).
Proof.
  intros Hnd Hs Hf. induction rows as [|row rows IH]; [done|].
  rewrite bind_cons, filter_app, length_app, IH.
  assert (full_path root s f ∈ full_path root s <$> files_of root s) as Hin
    by (apply list_elem_of_fmap; by exists f).
  destruct (decide (row.1.1 = s)) as [Heq|Hne].
  - rewrite filter_cons_True by done. simpl.
    unfold pair_records. rewrite Heq, decide_True by done.
    rewrite count_record_for, Heq, count_once; [done| |done].
    by apply (NoDup_bind_each _ names s Hnd).
  - rewrite filter_cons_False by done.
    replace (length (filter (λ r, path_wav r = full_path root s f)
                       (pair_records root names row))) with 0%nat; [done|].
    symmetry. unfold pair_records.
    destruct (decide (row.1.1 ∈ names)) as [Hrow|Hrow]; [|done].
    rewrite count_record_for. apply count_absent. intros Hin'.
    apply Hne. unfold audio_paths in Hnd.
    by apply (NoDup_bind_inj _ names row.1.1 s (full_path root s f) Hnd).
Qed.
End count_facts.

(** C10. The matcher gives one record to every pair of a row and a file of
    the speaker of the row, with the labels of this row, and removes none:
    the list that the splitter flattens out of the mapping is the list of
    these records, row after row, and when distinct files have distinct
    paths a file of a speaker is the path of as many records as the table
    has rows with this speaker. *)
Theorem repeated_speaker_records {OSI : OS} (path_to_dataWav path_txt_info : str)
    (names : list str) (rows : list MetadataRow) :
  load_in4 path_txt_info = Ok rows →
  listdir path_to_dataWav = Ok names → NoDup names →
  (∀ row, row ∈ rows → row.1.1 ∈ names →
     ∃ wavs, listdir (path_join path_to_dataWav row.1.1) = Ok wavs) →
  ∃ infor_wav data_dict,
    transform_data path_to_dataWav path_txt_info = Ok data_dict
    ∧ collect data_dict (keys data_dict) = Ok infor_wav
    ∧ infor_wav = rows ≫= pair_records path_to_dataWav names
    ∧ (∀ row f, row ∈ rows → row.1.1 ∈ names →
         f ∈ files_of path_to_dataWav row.1.1 →
         record_for path_to_dataWav row f ∈ infor_wav)
    ∧ (NoDup (audio_paths path_to_dataWav names) →
       ∀ s f, s ∈ names → f ∈ files_of path_to_dataWav s →
         length (filter (λ r, path_wav r = full_path path_to_dataWav s f)
                   infor_wav)
         = length (filter (λ row, row.1.1 = s) rows)).
Proof.
  intros Hload Hroot Hnd Hdirs.
  pose proof (rows_records_pairs path_to_dataWav names rows Hroot Hnd Hdirs)
    as Hrec.
  exists (rows ≫= pair_records path_to_dataWav names).
  exists (index_records (rows ≫= pair_records path_to_dataWav names)).
  split_and!.
  - unfold transform_data, infor_wav_of. rewrite Hload. simpl.
    by rewrite Hrec.
  - apply collect_index_records.
  - done.
  - intros row f Hrow Hin Hf. apply list_elem_of_bind. exists row.
    split; [|done]. unfold pair_records. rewrite decide_True by done.
    apply list_elem_of_fmap. by exists f.
  - intros Hpaths s f Hs Hf. by apply count_pair_records.
Qed.

Lemma repeated_speaker_records_witness :
  ∃ infor_wav data_dict,
    transform_data (OSI := Fixture.mem_os) (lit "data") (lit "meta.tsv")
    = Ok data_dict
    ∧ collect data_dict (keys data_dict) = Ok infor_wav
    ∧ length (filter (λ r, path_wav r = lit "data/spk1/a.wav") infor_wav)
      = 2%nat.
Proof.
  destruct (repeated_speaker_records (OSI := Fixture.mem_os) (lit "data")
              (lit "meta.tsv") [lit "spk1"; lit "spk2"; lit "notes.txt"]
              [(lit "spk1", lit "north", lit "male");
               (lit "spk9", lit "south", lit "female");
               (lit "spk2", lit "central", lit "female");
               (lit "spk1", lit "north", lit "male")])
    as (infor_wav & data_dict & Ht & Hc & _ & _ & Hcount).
  - vm_compute; reflexivity.
  - reflexivity.
  - apply (bool_decide_unpack _); vm_compute; exact I.
  - intros row Hrow Hin.
    repeat (apply elem_of_cons in Hrow as [->|Hrow]);
      [| |
       | |apply elem_of_nil in Hrow; destruct Hrow].
    + eexists; vm_compute; reflexivity.
    + apply (bool_decide_pack _) in Hin. vm_compute in Hin. destruct Hin.
    + eexists; vm_compute; reflexivity.
    + eexists; vm_compute; reflexivity.
  - exists infor_wav, data_dict. split; [exact Ht|]. split; [exact Hc|].
    apply (Hcount ltac:(apply (bool_decide_unpack _); vm_compute; exact I)
             (lit "spk1") (lit "a.wav")).
    + apply (bool_decide_unpack _); vm_compute; exact I.
    + apply (bool_decide_unpack _); vm_compute; exact I.
Defined.

(** The same path in two splits: the table of the small world has two rows
    for [spk1]. *)
Example same_path_across_splits :
  ∃ ds, (seed_and_split (RND := Fixture.lcg) (OSI := Fixture.mem_os)
           (lit "data") (lit "meta.tsv") [80; 10; 10] 12 0).1 = Ok ds
    ∧ lit "data/spk1/b.wav" ∈ path_wav <$> train ds
    ∧ lit "data/spk1/b.wav" ∈ path_wav <$> test ds.
Proof.
  eexists. split; [vm_compute; reflexivity|].
  split; apply (bool_decide_unpack _); vm_compute; exact I.
Qed.

Lemma create_json_entries_witness :
  ∃ json_dict,
    fill_json (OSI := Fixture.mem_os)
      [mkAudio (lit "data/spk1/a.wav") (lit "north") (lit "male");
       mkAudio (lit "data/spk2/clip01.wav") (lit "central") (lit "female")] []
    = Ok json_dict
    ∧ keys json_dict = [lit "a"; lit "clip01"].
Proof.
  destruct (create_json_entries (OSI := Fixture.mem_os)
              [mkAudio (lit "data/spk1/a.wav") (lit "north") (lit "male");
               mkAudio (lit "data/spk2/clip01.wav") (lit "central") (lit "female")]
              [16000%N; 1%N] (lit "train.json") [])
    as (es & json_dict & Hfill & _ & _ & _ & Hkeys & _).
  - repeat (constructor; [split; vm_compute; reflexivity|]). constructor.
  - exists json_dict. split; [exact Hfill|]. rewrite Hkeys. reflexivity.
Defined.

Lemma create_json_last_write_wins_witness :
  ∃ json_dict e,
    create_json (OSI := Fixture.mem_os)
      [mkAudio (lit "data/spk1/a.wav") (lit "north") (lit "male");
       mkAudio (lit "data/spk2/clip01.wav") (lit "central") (lit "female");
       mkAudio (lit "data/spk1/a.wav") (lit "south") (lit "male")]
      (lit "test.json") []
    = (Ok (), [(lit "test.json", json_dict)])
    ∧ NoDup (keys json_dict)
    ∧ dict_get json_dict (lit "a") = Some e
    ∧ entry_regions e = lit "south".
Proof.
  destruct (create_json_last_write_wins (OSI := Fixture.mem_os)
              [mkAudio (lit "data/spk1/a.wav") (lit "north") (lit "male");
               mkAudio (lit "data/spk2/clip01.wav") (lit "central") (lit "female");
               mkAudio (lit "data/spk1/a.wav") (lit "south") (lit "male")]
              [16000%N; 1%N; 16000%N] (lit "test.json") [])
    as (es & json_dict & out' & Hcreate & Hget & _ & _ & Hfor & Hnd & _ & Hlast).
  - repeat (constructor; [split; vm_compute; reflexivity|]). constructor.
  - reflexivity.
  - destruct (Forall2_lookup_l _ _ _ 2%nat _ Hfor eq_refl)
      as (e & He & _ & _ & Hreg).
    pose proof Hcreate as Hout. vm_compute in Hout. injection Hout as <-.
    vm_compute in Hget. injection Hget as <-.
    eexists. exists e.
    split; [exact Hcreate|]. split; [exact Hnd|]. split; [|exact Hreg].
    apply (Hlast 0%nat 2%nat
             (mkAudio (lit "data/spk1/a.wav") (lit "north") (lit "male"))
             (mkAudio (lit "data/spk1/a.wav") (lit "south") (lit "male")) e);
      [reflexivity|reflexivity|exact He|reflexivity|].
    intros k obj_k Hk Hobj.
    destruct k as [|[|[|k]]]; [lia|lia|lia|discriminate Hobj].
Defined.

(** The manifest of three records of which the first and the last have the
    same utterance id: two keys, and the region of the last record under
    the key [a]. *)
Example last_write_wins_run :
  (λ json_dict : json,
     map (λ kv : str * ManifestEntry, (kv.1, entry_regions kv.2)) json_dict)
  <$> fill_json (OSI := Fixture.mem_os)
        [mkAudio (lit "data/spk1/a.wav") (lit "north") (lit "male");
         mkAudio (lit "data/spk2/clip01.wav") (lit "central") (lit "female");
         mkAudio (lit "data/spk1/a.wav") (lit "south") (lit "male")] []
  = Ok [(lit "a", lit "south"); (lit "clip01", lit "central")].
Proof. vm_compute. reflexivity. Qed.

(** * Further properties of the script *)

(** ** More on the splitter *)

Section splitter_more.
Context {RND : Random}.

Lemma dict_get_NoDup {K V} `{EqDecision K} (d : pydict K V) k v :
  NoDup (keys d) → (k, v) ∈ d → dict_get d k = Some v.
Proof.
  induction d as [|[k' v'] d IH]; simpl; [by intros _ ?%elem_of_nil|].
  rewrite NoDup_cons. intros [Hk' Hnd] [[= -> ->]|Hin]%elem_of_cons.
  - by rewrite decide_True.
  - rewrite decide_False; [by apply IH|].
    intros ->. apply Hk'. apply list_elem_of_fmap. by exists (k', v).
Qed.

Lemma collect_empty_entry {A} (d : pydict nat (list A)) k ks :
  NoDup (keys d) → (k, []) ∈ d → k ∈ ks → ks ⊆ keys d →
  collect d ks = Raise IndexError.
Proof.
  intros Hnd Hk. induction ks as [|key ks IH]; [by intros ?%elem_of_nil|].
  intros Hin Hsub. cbn [collect].
  destruct (dict_get_elem d key) as (l & Hl & Hkl); [apply Hsub; left|].
  rewrite Hl. destruct l as [|a l]; [done|]. simpl.
  apply elem_of_cons in Hin as [->|Hin].
  - rewrite (dict_get_NoDup d key [] Hnd Hk) in Hl. done.
  - rewrite IH; [done..|]. intros x Hx. apply Hsub. by right.
Qed.

Lemma dict_get_map_records {A B} (f : A → B) (d : pydict nat (list A)) k :
  dict_get (map_records f d) k = map f <$> dict_get d k.
Proof.
  induction d as [|[k' v'] d IH]; simpl; [done|].
  by destruct (decide (k = k')).
Qed.

Lemma collect_map_records {A B} (f : A → B) (d : pydict nat (list A)) ks :
  collect (map_records f d) ks = map f <$> collect d ks.
Proof.
  induction ks as [|key ks IH]; [done|]. cbn [collect].
  rewrite dict_get_map_records.
  destruct (dict_get d key) as [l|]; simpl; [|done].
  destruct l as [|a l]; simpl; [done|]. rewrite IH.
  by destruct (collect d ks).
Qed.

Lemma keys_map_records {A B} (f : A → B) (d : pydict nat (list A)) :
  keys (map_records f d) = keys d.
Proof.
  unfold keys, map_records. induction d as [|[k v] d IH]; simpl; [done|].
  by f_equal.
Qed.
End splitter_more.

(** X1. Whenever the splitter returns, train, valid and test, one after the
    other, are the shuffled list itself: train is its beginning, test its
    end, and the three sizes add up to the number of entries. *)
Theorem split_sets_concat {RND : Random} {A} (data_dict : pydict nat (list A))
    (split_ratio : list Z) (g : rng_state) (ds : data_split A) :
  (split_sets data_dict split_ratio g).1 = Ok ds →
  ∃ wav_list0,
    collect data_dict (keys data_dict) = Ok wav_list0
    ∧ train ds ++ valid ds ++ test ds = (shuffle wav_list0 g).1
    ∧ (length (train ds) + length (valid ds) + length (test ds)
       = length data_dict)%nat.
Proof.
  unfold split_sets.
  destruct (collect data_dict (keys data_dict)) as [l0|e] eqn:Hc; [|done].
  destruct (shuffle l0 g) as [l g'] eqn:Hsh. simpl. intros Hds.
  apply split_shuffled_app in Hds. exists l0. split_and!.
  - done.
  - by rewrite Hsh.
  - pose proof (length_shuffle l0 g) as Hl. rewrite Hsh in Hl. simpl in Hl.
    rewrite <- Hds, !length_app, (length_collect _ _ _ Hc) in Hl.
    unfold keys in Hl. rewrite length_fmap in Hl. lia.
Qed.

Lemma split_sets_concat_witness :
  ∃ ds, (split_sets (RND := Fixture.lcg) (Fixture.numbered 20) [-1; 0; 11]
           (random_seed 12)).1 = Ok ds
    ∧ (length (train ds) + length (valid ds) + length (test ds) = 20)%nat.
Proof.
  assert (∃ ds, (split_sets (RND := Fixture.lcg) (Fixture.numbered 20)
                   [-1; 0; 11] (random_seed 12)).1 = Ok ds) as [ds Hds]
    by (eexists; vm_compute; reflexivity).
  exists ds. split; [exact Hds|].
  destruct (split_sets_concat _ _ _ _ Hds) as (l0 & _ & _ & Hlen).
  exact Hlen.
Defined.

(** X2. An entry of the mapping that holds no record makes the splitter
    raise [IndexError] before it shuffles: the generator is left as it
    was. *)
Theorem split_sets_empty_entry {RND : Random} {A}
    (data_dict : pydict nat (list A)) (split_ratio : list Z) (g : rng_state)
    (key : nat) :
  NoDup (keys data_dict) → (key, []) ∈ data_dict →
  split_sets data_dict split_ratio g = (Raise IndexError, g).
Proof.
  intros Hnd Hin. unfold split_sets.
  rewrite (collect_empty_entry data_dict key (keys data_dict)); try done.
  apply list_elem_of_fmap. by exists (key, []).
Qed.

Lemma split_sets_empty_entry_witness :
  split_sets (RND := Fixture.lcg) [(0%nat, [7%nat]); (1%nat, []); (2%nat, [9%nat])]
    [80; 10; 10] (random_seed 12)
  = (Raise IndexError, random_seed 12).
Proof.
  apply (split_sets_empty_entry (RND := Fixture.lcg)
           [(0%nat, [7%nat]); (1%nat, []); (2%nat, [9%nat])] [80; 10; 10]
           (random_seed 12) 1%nat).
  - apply (bool_decide_unpack _); vm_compute; exact I.
  - apply (bool_decide_unpack _); vm_compute; exact I.
Defined.

(** X3. Of the ratio vector the splitter reads the first two entries and
    the sum, nothing else: two vectors that agree on these give the same
    splits and the same generator state. *)
Theorem split_sets_ratio_tail {RND : Random} {A}
    (data_dict : pydict nat (list A)) (ratio ratio' : list Z) (g : rng_state) :
  ratio !! 0%nat = ratio' !! 0%nat → ratio !! 1%nat = ratio' !! 1%nat →
  sum ratio = sum ratio' →
  split_sets data_dict ratio g = split_sets data_dict ratio' g.
Proof.
  intros H0 H1 Hsum. unfold split_sets, split_shuffled, take_split, getitem.
  by rewrite H0, H1, Hsum.
Qed.

Lemma split_sets_ratio_tail_witness :
  split_sets (RND := Fixture.lcg) (Fixture.numbered 10) [80; 10; 10]
    (random_seed 12)
  = split_sets (RND := Fixture.lcg) (Fixture.numbered 10) [80; 10; 3; 3; 4]
      (random_seed 12).
Proof.
  apply (split_sets_ratio_tail (RND := Fixture.lcg)); reflexivity.
Defined.

(** X4. The splits depend on the proportions only: a vector of three
    entries, none negative, and the same vector multiplied by a positive
    integer give the same splits, as long as the products with the number
    of records stay below [2 ^ 53]. *)
Theorem split_sets_scale {RND : Random} {A} (data_dict : pydict nat (list A))
    (c r_train r_valid r_test : Z) (g : rng_state) :
  let N := Z.of_nat (length data_dict) in
  0 < c → 0 ≤ r_train → 0 ≤ r_valid → 0 ≤ r_test →
  0 < r_train + r_valid + r_test →
  N * (c * r_train) < 2 ^ 53 → N * (c * r_valid) < 2 ^ 53 →
  split_sets data_dict [c * r_train; c * r_valid; c * r_test] g
  = split_sets data_dict [r_train; r_valid; r_test] g.
Proof.
  intros N Hc Ht Hv He Htot Hbt Hbv. unfold split_sets.
  destruct (collect data_dict (keys data_dict)) as [l0|e] eqn:Hcol; [|done].
  destruct (shuffle l0 g) as [l g'] eqn:Hsh. f_equal.
  assert (Z.of_nat (length l) = N) as Hl.
  { pose proof (length_shuffle l0 g) as Hs. rewrite Hsh in Hs. simpl in Hs.
    rewrite Hs, (length_collect _ _ _ Hcol). unfold N, keys.
    by rewrite length_fmap. }
  unfold split_shuffled, take_split. simpl. rewrite !sum_three, Hl.
  assert (0 ≤ N) as HN by (unfold N; lia).
  set (X := 2 ^ 53) in *.
  rewrite !int_true_divide_floor by (fold X; nia). simpl.
  replace (c * r_train + c * r_valid + c * r_test)
    with (c * (r_train + r_valid + r_test)) by lia.
  replace (N * (c * r_train)) with (c * (N * r_train)) by lia.
  replace (N * (c * r_valid)) with (c * (N * r_valid)) by lia.
  by rewrite !Z.div_mul_cancel_l by lia.
Qed.

Lemma split_sets_scale_witness :
  split_sets (RND := Fixture.lcg) (Fixture.numbered 10) [80; 10; 10]
    (random_seed 12)
  = split_sets (RND := Fixture.lcg) (Fixture.numbered 10) [8; 1; 1]
      (random_seed 12).
Proof.
  apply (split_sets_scale (RND := Fixture.lcg) (Fixture.numbered 10) 10 8 1 1
           (random_seed 12)); solve [lia | vm_compute; reflexivity].
Defined.

(** X5. The test split absorbs what the two roundings leave: it holds at
    least its share [N * r_test / sum r] and less than two records more. *)
Theorem split_sets_test_share {RND : Random} {A}
    (data_dict : pydict nat (list A)) (r_train r_valid r_test : Z)
    (g : rng_state) :
  let N := Z.of_nat (length data_dict) in
  let tot := sum [r_train; r_valid; r_test] in
  nonempty_entries data_dict →
  0 ≤ r_train → 0 ≤ r_valid → 0 ≤ r_test → 0 < tot →
  N * r_train < 2 ^ 53 → N * r_valid < 2 ^ 53 →
  ∃ ds, (split_sets data_dict [r_train; r_valid; r_test] g).1 = Ok ds
    ∧ N * r_test ≤ tot * Z.of_nat (length (test ds)) < N * r_test + 2 * tot
    ∧ N * r_test / tot ≤ Z.of_nat (length (test ds)) ≤ N * r_test / tot + 2.
Proof.
  intros N tot Hne Ht Hv He Htot Hbt Hbv. unfold split_sets.
  destruct (collect_ok data_dict (keys data_dict) Hne) as [l0 Hc]; [done|].
  rewrite Hc. destruct (shuffle l0 g) as [l g'] eqn:Hsh. simpl.
  assert (length l = length data_dict) as Hl.
  { pose proof (length_shuffle l0 g) as Hs. rewrite Hsh in Hs. simpl in Hs.
    rewrite Hs, (length_collect _ _ _ Hc). unfold keys. apply length_fmap. }
  destruct (split_shuffled_sizes l r_train r_valid r_test)
    as (ds & Hds & _ & _ & Hlt & Hlv & Hle); rewrite ?Hl; try done.
  rewrite Hl in *. fold N tot in Hlt, Hlv, Hle.
  exists ds. split; [done|].
  pose proof (Z.mul_div_le (N * r_train) tot Htot) as Ht1.
  pose proof (Z.mul_succ_div_gt (N * r_train) tot Htot) as Ht2.
  pose proof (Z.mul_div_le (N * r_valid) tot Htot) as Hv1.
  pose proof (Z.mul_succ_div_gt (N * r_valid) tot Htot) as Hv2.
  assert (tot = r_train + r_valid + r_test) as Hsum by apply sum_three.
  set (qt := N * r_train / tot) in *. set (qv := N * r_valid / tot) in *.
  set (X := 2 ^ 53) in *.
  assert (N * r_test ≤ tot * Z.of_nat (length (test ds))
          < N * r_test + 2 * tot) as Hshare by nia.
  split; [done|]. split.
  - apply Z.div_le_upper_bound; lia.
  - assert (Z.of_nat (length (test ds)) - 2 ≤ N * r_test / tot); [|lia].
    apply Z.div_le_lower_bound; lia.
Qed.

Lemma split_sets_test_share_witness :
  ∃ ds, (split_sets (RND := Fixture.lcg) (Fixture.numbered 10) [1; 1; 1]
           (random_seed 12)).1 = Ok ds
    ∧ 3 ≤ Z.of_nat (length (test ds)) ≤ 5.
Proof.
  destruct (split_sets_test_share (RND := Fixture.lcg) (Fixture.numbered 10)
              1 1 1 (random_seed 12)) as (ds & Hds & _ & Hshare).
  - apply (bool_decide_unpack _); vm_compute; exact I.
  - lia.
  - lia.
  - lia.
  - vm_compute; reflexivity.
  - vm_compute; reflexivity.
  - vm_compute; reflexivity.
  - exists ds. split; [exact Hds|]. exact Hshare.
Defined.

(** X6. A mapping without entries is split into three empty splits and the
    generator is not used, for every vector of two entries or more whose
    sum is not zero; when the sum is zero the division by it still
    raises. *)
Theorem split_sets_empty_mapping {RND : Random} {A} (split_ratio : list Z)
    (g : rng_state) :
  ((2 ≤ length split_ratio)%nat → sum split_ratio ≠ 0 →
   split_sets ([] : pydict nat (list A)) split_ratio g
   = (Ok (mkSplit [] [] []), g))
  ∧ (split_ratio ≠ [] → sum split_ratio = 0 →
     split_sets ([] : pydict nat (list A)) split_ratio g
     = (Raise ZeroDivisionError, g)).
Proof.
  split.
  - intros Hlen Hsum. destruct split_ratio as [|r0 [|r1 rest]];
      simpl in Hlen; try lia.
    unfold split_sets, split_shuffled, take_split. simpl.
    unfold int_true_divide, Float.true_divide.
    destruct (Z.eqb_spec (sum (r0 :: r1 :: rest)) 0) as [?|_]; done.
  - intros Hne Hsum. destruct split_ratio as [|r0 rest]; [done|].
    unfold split_sets, split_shuffled, take_split. simpl.
    unfold int_true_divide, Float.true_divide. by rewrite Hsum.
Qed.

Lemma split_sets_empty_mapping_witness :
  split_sets (RND := Fixture.lcg) ([] : pydict nat (list nat)) [80; 10; 10] 5
  = (Ok (mkSplit [] [] []), 5).
Proof.
  apply (split_sets_empty_mapping (RND := Fixture.lcg) (A := nat)
           [80; 10; 10] 5).
  - simpl; lia.
  - vm_compute. discriminate.
Defined.

(** X7. The splitter never looks at a record: a function applied to every
    record of the mapping comes out applied to every record of the splits,
    and the generator ends in the same state. *)
Theorem split_sets_natural {RND : Random} {A B} (f : A → B)
    (data_dict : pydict nat (list A)) (split_ratio : list Z) (g : rng_state) :
  split_sets (map_records f data_dict) split_ratio g
  = (map_split f <$> (split_sets data_dict split_ratio g).1,
     (split_sets data_dict split_ratio g).2).
Proof.
  unfold split_sets. rewrite keys_map_records, collect_map_records.
  destruct (collect data_dict (keys data_dict)) as [l0|e]; simpl; [|done].
  change (map f l0) with (f <$> l0). rewrite shuffle_fmap.
  destruct (shuffle l0 g) as [l g']. simpl.
  by rewrite split_shuffled_fmap.
Qed.

(** ** More on the metadata loader *)

Lemma split_all_tokens (x : str) : Forall token (split x).
Proof.
  induction x as [|c x IH]; [constructor|].
  destruct (is_space c) eqn:Hc.
  - simpl. by rewrite Hc.
  - rewrite split_cons_token by done.
    assert (token [c]) as Hone by (split; [done|by constructor]).
    destruct x as [|c' x]; [by constructor|].
    destruct (is_space c') eqn:Hc'; [by constructor|].
    destruct (split (c' :: x)) as [|tok toks]; [by constructor|].
    apply Forall_cons in IH as [[_ Htok] Htoks].
    constructor; [|done]. split; [done|by constructor].
Qed.

Lemma load_row_fields i row :
  load_row i = Ok row → token row.1.1 ∧ token row.1.2 ∧ token row.2.
Proof.
  unfold load_row. pose proof (split_all_tokens (strip i)) as Htok.
  destruct (split (strip i)) as [|a [|b [|c rest]]]; simpl; try done.
  intros [= <-]. simpl.
  apply Forall_cons in Htok as [Ha Htok].
  apply Forall_cons in Htok as [Hb Htok].
  by apply Forall_cons in Htok as [Hc _].
Qed.

Lemma load_rows_fields f rows :
  load_rows f = Ok rows →
  Forall (λ row, token row.1.1 ∧ token row.1.2 ∧ token row.2) rows.
Proof.
  revert rows. induction f as [|i f IH]; intros rows; simpl.
  - intros [= <-]. constructor.
  - intros Hrows. apply bind_Ok in Hrows as (row & Hrow & Hrows).
    apply bind_Ok in Hrows as (rows' & Hrows' & [= <-]).
    constructor; [by eapply load_row_fields|by apply IH].
Qed.

(** X8. Every field of every row that the loader returns is a token: it is
    not empty and holds no whitespace character. *)
Theorem load_in4_fields_are_tokens {OSI : OS} (path_txt_info : str)
    (rows : list MetadataRow) :
  load_in4 path_txt_info = Ok rows →
  Forall (λ row, token row.1.1 ∧ token row.1.2 ∧ token row.2) rows.
Proof.
  unfold load_in4. intros Hload.
  apply bind_Ok in Hload as (f & _ & Hrows). by eapply load_rows_fields.
Qed.

Lemma load_in4_fields_are_tokens_witness :
  ∃ rows, load_in4 (OSI := Fixture.mem_os) (lit "meta.tsv") = Ok rows
    ∧ Forall (λ row, token row.1.1 ∧ token row.1.2 ∧ token row.2) rows.
Proof.
  assert (∃ rows, load_in4 (OSI := Fixture.mem_os) (lit "meta.tsv") = Ok rows)
    as [rows Hrows] by (eexists; vm_compute; reflexivity).
  exists rows. split; [exact Hrows|].
  exact (load_in4_fields_are_tokens (OSI := Fixture.mem_os) _ _ Hrows).
Defined.

(** X9. A line of whitespace only, as an empty line at the end of the
    table, aborts the load with [IndexError]. *)
Theorem load_in4_blank_line {OSI : OS} (path_txt_info : str) (f : list str) :
  read_lines path_txt_info = Ok f → Exists blank f →
  load_in4 path_txt_info = Raise IndexError.
Proof.
  intros Hf Hblank. unfold load_in4. rewrite Hf. simpl.
  apply load_rows_abort. eapply Exists_impl; [done|].
  intros i Hi. simpl. rewrite split_strip, split_blank by done. simpl. lia.
Qed.

Lemma load_in4_blank_line_witness :
  load_in4 (OSI := Faulty.faulty_os) (lit "blank.tsv") = Raise IndexError.
Proof.
  apply (load_in4_blank_line (OSI := Faulty.faulty_os) (lit "blank.tsv")
           [lit "spk1 north male" ++ [Fixture.nl]; [Fixture.nl]]).
  - reflexivity.
  - apply Exists_cons_tl, Exists_cons_hd.
    apply (bool_decide_unpack _); vm_compute; exact I.
Defined.

(** ** More on the matcher *)

Section matcher_more.
Context {OSI : OS}.
Implicit Types (row : MetadataRow) (rows : list MetadataRow).

Lemma speaker_records_Ok root row here :
  speaker_records root row = Ok here →
  here = record_for root row <$> files_of root row.1.1.
Proof.
  unfold speaker_records, files_of. destruct row as [[id reg] sex]. simpl.
  destruct (listdir (path_join root id)) as [wavs|e]; simpl; [|done].
  by intros [= <-].
Qed.

Lemma scan_dir_sound root row names l :
  scan_dir root row names = Ok l →
  ∀ r, r ∈ l → row.1.1 ∈ names
    ∧ ∃ wav, wav ∈ files_of root row.1.1 ∧ r = record_for root row wav.
Proof.
  revert l. induction names as [|i names IH]; intros l; cbn [scan_dir].
  - intros [= <-] r Hr. by apply elem_of_nil in Hr.
  - intros Hl. apply bind_Ok in Hl as (here & Hhere & Hl).
    apply bind_Ok in Hl as (rest & Hrest & [= <-]).
    intros r [Hr|Hr]%elem_of_app.
    + destruct (decide (i = row.1.1)) as [->|Hne].
      * apply speaker_records_Ok in Hhere. subst here.
        apply list_elem_of_fmap in Hr as (wav & -> & Hwav).
        split; [left|by exists wav].
      * injection Hhere as <-. by apply elem_of_nil in Hr.
    + destruct (IH _ Hrest r Hr) as [Hin Hwav]. split; [by right|done].
Qed.

Lemma rows_records_sound root rows l :
  rows_records root rows = Ok l →
  ∀ r, r ∈ l → ∃ row wav names,
    row ∈ rows ∧ listdir root = Ok names ∧ row.1.1 ∈ names
    ∧ wav ∈ files_of root row.1.1 ∧ r = record_for root row wav.
Proof.
  revert l. induction rows as [|row rows IH]; intros l; cbn [rows_records].
  - intros [= <-] r Hr. by apply elem_of_nil in Hr.
  - intros Hl. apply bind_Ok in Hl as (here & Hhere & Hl).
    apply bind_Ok in Hl as (rest & Hrest & [= <-]).
    intros r [Hr|Hr]%elem_of_app.
    + unfold row_records in Hhere.
      apply bind_Ok in Hhere as (names & Hnames & Hscan).
      destruct (scan_dir_sound _ _ _ _ Hscan r Hr) as (Hin & wav & Hwav & ->).
      exists row, wav, names. split_and!; try done. left.
    + destruct (IH _ Hrest r Hr) as (row' & wav & names & Hrow & Hrest').
      exists row', wav, names. split; [by right|done].
Qed.

Lemma dict_get_Some_elem {K V} `{EqDecision K} (d : pydict K V) k v :
  dict_get d k = Some v → (k, v) ∈ d.
Proof.
  induction d as [|[k' v'] d IH]; simpl; [done|].
  destruct (decide (k = k')) as [->|Hne].
  - intros [= ->]. left.
  - intros Hv. right. by apply IH.
Qed.

Lemma record_of_index_records (l : list AudioRecord) key a :
  record_of (index_records l) key a → a ∈ l.
Proof.
  intros (rl & Hget & Ha). rewrite index_records_zip in Hget.
  apply dict_get_Some_elem, elem_of_zip_r in Hget.
  apply list_elem_of_fmap in Hget as (r & -> & Hr).
  by injection Ha as <-.
Qed.

Lemma transform_data_Ok root path d :
  transform_data root path = Ok d →
  ∃ rows infor_wav, load_in4 path = Ok rows
    ∧ rows_records root rows = Ok infor_wav ∧ d = index_records infor_wav.
Proof.
  unfold transform_data, infor_wav_of. intros Ht.
  destruct (load_in4 path) as [rows|e]; [|done].
  change (index_records <$> rows_records root rows = Ok d) in Ht.
  destruct (rows_records root rows) as [infor_wav|e] eqn:Hrec;
    [|by simpl in Ht].
  change (Ok (index_records infor_wav) = Ok d) in Ht.
  exists rows, infor_wav. split_and!; [done..|]. by injection Ht.
Qed.

Lemma replace_absent a b (x : str) : a ≠ b → a ∉ replace a b x.
Proof.
  intros Hab. unfold replace. induction x as [|c x IH]; simpl.
  - apply not_elem_of_nil.
  - apply not_elem_of_cons. split; [|done]. by destruct (decide (c = a)).
Qed.
End matcher_more.

(** X10. The mapping that [transform_data] returns has the keys 0, 1, 2,
    ... in this order, and under key [i] a list of one record, record [i]
    of the flattened list: its keys are distinct, none of its entries is
    empty, and the splitter collects the flattened list back from it. *)
Theorem transform_data_shape {OSI : OS} (path_to_dataWav path_txt_info : str)
    (data_dict : pydict nat (list AudioRecord)) :
  transform_data path_to_dataWav path_txt_info = Ok data_dict →
  ∃ infor_wav,
    infor_wav_of path_to_dataWav path_txt_info = Ok infor_wav
    ∧ data_dict = zip (seq 0 (length infor_wav)) ((λ r, [r]) <$> infor_wav)
    ∧ keys data_dict = seq 0 (length data_dict)
    ∧ NoDup (keys data_dict)
    ∧ nonempty_entries data_dict
    ∧ collect data_dict (keys data_dict) = Ok infor_wav.
Proof.
  intros Ht. pose proof Ht as Ht'.
  apply transform_data_Ok in Ht' as (rows & infor_wav & Hload & Hrec & ->).
  destruct (collect_index_records infor_wav) as [Hcol Hkeys].
  exists infor_wav. split_and!.
  - unfold infor_wav_of. by rewrite Hload.
  - apply index_records_zip.
  - rewrite Hkeys. f_equal. rewrite index_records_zip, length_zip_with.
    rewrite length_seq, length_fmap. lia.
  - rewrite Hkeys. apply NoDup_seq.
  - unfold nonempty_entries. rewrite index_records_zip.
    apply Forall_forall. intros [k v] Hin%elem_of_zip_r.
    apply list_elem_of_fmap in Hin as (r & -> & _). done.
  - done.
Qed.

Lemma transform_data_shape_witness :
  ∃ data_dict,
    transform_data (OSI := Fixture.mem_os) (lit "data") (lit "meta.tsv")
    = Ok data_dict
    ∧ keys data_dict = seq 0 (length data_dict)
    ∧ NoDup (keys data_dict) ∧ nonempty_entries data_dict.
Proof.
  assert (∃ d, transform_data (OSI := Fixture.mem_os) (lit "data")
                 (lit "meta.tsv") = Ok d) as [d Hd]
    by (eexists; vm_compute; reflexivity).
  exists d. split; [exact Hd|].
  destruct (transform_data_shape (OSI := Fixture.mem_os) _ _ _ Hd)
    as (iw & _ & _ & Hkeys & Hnd & Hne & _).
  split; [exact Hkeys|]. split; [exact Hnd|exact Hne].
Defined.

(** X11. The matcher invents nothing: every record of the mapping is the
    record of a row of the table and of a file listed in the directory of
    its speaker, whose name is an entry of the audio root; it has the
    region and the sex of this row. *)
Theorem transform_data_sound {OSI : OS} (path_to_dataWav path_txt_info : str)
    (data_dict : pydict nat (list AudioRecord)) :
  transform_data path_to_dataWav path_txt_info = Ok data_dict →
  ∃ rows, load_in4 path_txt_info = Ok rows
    ∧ ∀ key a, record_of data_dict key a →
        ∃ row wav names,
          row ∈ rows ∧ listdir path_to_dataWav = Ok names ∧ row.1.1 ∈ names
          ∧ wav ∈ files_of path_to_dataWav row.1.1
          ∧ a = record_for path_to_dataWav row wav
          ∧ regions a = row.1.2 ∧ Sex a = row.2.
Proof.
  intros (rows & infor_wav & Hload & Hrec & ->)%transform_data_Ok.
  exists rows. split; [done|]. intros key a Ha%record_of_index_records.
  destruct (rows_records_sound _ _ _ Hrec a Ha)
    as (row & wav & names & Hrow & Hroot & Hin & Hwav & ->).
  by exists row, wav, names.
Qed.

Lemma transform_data_sound_witness :
  ∃ rows, load_in4 (OSI := Fixture.mem_os) (lit "meta.tsv") = Ok rows
    ∧ length rows = 4%nat.
Proof.
  assert (∃ d, transform_data (OSI := Fixture.mem_os) (lit "data")
                 (lit "meta.tsv") = Ok d) as [d Hd]
    by (eexists; vm_compute; reflexivity).
  destruct (transform_data_sound (OSI := Fixture.mem_os) _ _ _ Hd)
    as (rows & Hrows & _).
  exists rows. split; [exact Hrows|].
  vm_compute in Hrows. injection Hrows as <-. reflexivity.
Defined.

(** X12. No path of the mapping holds a backslash. *)
Theorem transform_data_no_backslash {OSI : OS}
    (path_to_dataWav path_txt_info : str)
    (data_dict : pydict nat (list AudioRecord)) :
  transform_data path_to_dataWav path_txt_info = Ok data_dict →
  ∀ key a, record_of data_dict key a → "\"%char ∉ path_wav a.
Proof.
  intros (rows & infor_wav & Hload & Hrec & ->)%transform_data_Ok.
  intros key a Ha%record_of_index_records.
  destruct (rows_records_sound _ _ _ Hrec a Ha)
    as (row & wav & names & _ & _ & _ & _ & ->).
  simpl. unfold full_path. by apply replace_absent.
Qed.

Lemma transform_data_no_backslash_witness :
  ∃ data_dict,
    transform_data (OSI := Fixture.mem_os) (lit "data") (lit "meta.tsv")
    = Ok data_dict
    ∧ ∀ key a, record_of data_dict key a → "\"%char ∉ path_wav a.
Proof.
  assert (∃ d, transform_data (OSI := Fixture.mem_os) (lit "data")
                 (lit "meta.tsv") = Ok d) as [d Hd]
    by (eexists; vm_compute; reflexivity).
  exists d. split; [exact Hd|].
  exact (transform_data_no_backslash (OSI := Fixture.mem_os) _ _ _ Hd).
Defined.

(** X13. The audio root is listed once for each row of the table: when it
    cannot be listed, a table with a row raises the error of the listing,
    and a table without rows gives the empty mapping all the same. *)
Theorem transform_data_unlistable_root {OSI : OS}
    (path_to_dataWav path_txt_info : str) (rows : list MetadataRow)
    (e : PyError) :
  listdir path_to_dataWav = Raise e → load_in4 path_txt_info = Ok rows →
  transform_data path_to_dataWav path_txt_info
  = match rows with
    | [] => Ok []
    | _ :: _ => Raise e
    end.
Proof.
  intros Hroot Hload. unfold transform_data, infor_wav_of. rewrite Hload.
  simpl. destruct rows as [|row rows]; [done|]. simpl.
  unfold row_records. by rewrite Hroot.
Qed.

Lemma transform_data_unlistable_root_witness :
  transform_data (OSI := Fixture.mem_os) (lit "nowhere") (lit "meta.tsv")
  = Raise OSError.
Proof.
  exact (transform_data_unlistable_root (OSI := Fixture.mem_os)
           (lit "nowhere") (lit "meta.tsv") _ OSError eq_refl eq_refl).
Defined.

(** X14. A row whose speaker id is the name of an entry of the audio root
    that cannot be listed, a plain file for one, aborts the whole run with
    the error of the listing, when the rows before it raised nothing. *)
Theorem unlistable_speaker_aborts {OSI : OS}
    (path_to_dataWav path_txt_info : str) (names : list str)
    (row : MetadataRow) (pre post : list MetadataRow)
    (x : list AudioRecord) (e : PyError) :
  load_in4 path_txt_info = Ok (pre ++ row :: post) →
  listdir path_to_dataWav = Ok names → NoDup names → row.1.1 ∈ names →
  listdir (path_join path_to_dataWav row.1.1) = Raise e →
  rows_records path_to_dataWav pre = Ok x →
  transform_data path_to_dataWav path_txt_info = Raise e.
Proof.
  intros Hload Hroot Hnd Hin Hdir Hpre.
  unfold transform_data, infor_wav_of. rewrite Hload. simpl.
  rewrite rows_records_app, Hpre. simpl.
  unfold row_records. rewrite Hroot. simpl.
  rewrite scan_dir_entry by done.
  unfold speaker_records. destruct row as [[id reg] sex]. simpl in *.
  by rewrite Hdir.
Qed.

Lemma unlistable_speaker_aborts_witness :
  transform_data (OSI := Faulty.faulty_os) (lit "data") (lit "notes.tsv")
  = Raise OSError.
Proof.
  apply (unlistable_speaker_aborts (OSI := Faulty.faulty_os) (lit "data")
           (lit "notes.tsv") [lit "spk1"; lit "spk2"; lit "notes.txt"]
           (lit "notes.txt", lit "north", lit "male")
           [(lit "spk2", lit "central", lit "female")]
           [(lit "spk1", lit "north", lit "male")]
           [mkAudio (lit "data/spk2/clip01.wav") (lit "central") (lit "female")]
           OSError).
  - vm_compute; reflexivity.
  - reflexivity.
  - apply (bool_decide_unpack _); vm_compute; exact I.
  - apply (bool_decide_unpack _); vm_compute; exact I.
  - vm_compute; reflexivity.
  - vm_compute; reflexivity.
Defined.

(** ** More on the manifest writer *)

Section manifest_more.
Context {OSI : OS}.

Lemma fill_json_app pre es rest json_dict :
  Forall2 (λ obj e, entry_of obj = Ok e) pre es →
  fill_json (pre ++ rest) json_dict
  = fill_json rest (assign_all json_dict (zip (uttids pre) es)).
Proof.
  intros Hes. revert json_dict.
  induction Hes as [|obj e pre es He _ IH]; intros json_dict; [done|].
  simpl. rewrite He. simpl. by rewrite IH.
Qed.

Lemma entry_of_fields obj e :
  entry_of obj = Ok e →
  entry_wav e = path_wav obj ∧ entry_regions e = regions obj.
Proof.
  unfold entry_of. intros He.
  apply bind_Ok in He as (n & _ & He). apply bind_Ok in He as (f & _ & He).
  by injection He as <-.
Qed.

Lemma Forall_dict_set {K V} `{EqDecision K} (P : K * V → Prop)
    (d : pydict K V) k v :
  Forall P d → P (k, v) → Forall P (dict_set d k v).
Proof.
  intros Hd Hkv. induction Hd as [|[k' v'] d Hk' Hd IH]; simpl.
  - by constructor.
  - destruct (decide (k = k')); by constructor.
Qed.

Lemma fill_json_invariant (P : str * ManifestEntry → Prop) wav_list
    json_dict json_dict' :
  (∀ obj e, obj ∈ wav_list → entry_of obj = Ok e →
     P (uttid_of (path_wav obj), e)) →
  Forall P json_dict → fill_json wav_list json_dict = Ok json_dict' →
  Forall P json_dict'.
Proof.
  revert json_dict. induction wav_list as [|obj wav_list IH];
    intros json_dict HP Hd; simpl.
  - by intros [= <-].
  - intros Hfill. apply bind_Ok in Hfill as (e & He & Hfill).
    eapply IH; [|  |done].
    + intros obj' e' Hin. apply HP. by right.
    + apply Forall_dict_set; [done|]. apply HP; [left|done].
Qed.

Lemma length_insertion_order (l : list str) :
  (length (insertion_order l) ≤ length l)%nat
  ∧ (length (insertion_order l) = length l ↔ NoDup l).
Proof.
  assert (NoDup (insertion_order l)) as Hnd
    by apply NoDup_fold_add_key, NoDup_nil_2.
  assert (insertion_order l ⊆+ l) as Hsub.
  { apply NoDup_submseteq; [done|]. intros x Hx.
    apply elem_of_fold_add_key in Hx as [Hx|Hx]; [|done].
    by apply elem_of_nil in Hx. }
  split; [by apply submseteq_length|]. split.
  - intros Hlen. apply submseteq_length_Permutation in Hsub; [|lia].
    by rewrite <- Hsub.
  - intros Hl. by rewrite insertion_order_NoDup.
Qed.

Lemma split_on_no_sep sep (x : str) : Forall (λ t, sep ∉ t) (split_on sep x).
Proof.
  induction x as [|c x IH]; simpl.
  - constructor; [apply not_elem_of_nil|constructor].
  - destruct (decide (c = sep)) as [->|Hne].
    + constructor; [apply not_elem_of_nil|done].
    + destruct (split_on sep x) as [|tok toks]; simpl.
      * constructor; [|constructor]. rewrite not_elem_of_cons.
        split; [done|apply not_elem_of_nil].
      * apply Forall_cons in IH as [Htok Htoks]. constructor; [|done].
        by rewrite not_elem_of_cons.
Qed.

Lemma split_on_lengths sep (x : str) :
  Forall (λ t, (length t ≤ length x)%nat) (split_on sep x).
Proof.
  induction x as [|c x IH]; simpl.
  - by repeat constructor.
  - destruct (decide (c = sep)) as [->|Hne].
    + constructor; [simpl; lia|].
      eapply Forall_impl; [done|]. simpl. intros; lia.
    + destruct (split_on sep x) as [|tok toks]; simpl.
      * constructor; [simpl; lia|constructor].
      * apply Forall_cons in IH as [Htok Htoks].
        constructor; [simpl; lia|].
        eapply Forall_impl; [done|]. simpl. intros; lia.
Qed.
End manifest_more.

(** X15. The first file of a split that does not decode aborts the writer
    with the error of the decoder, and the destination is not written, not
    even opened: the files written before stay as they were. *)
Theorem create_json_read_error {OSI : OS} (pre post : list AudioRecord)
    (obj : AudioRecord) (samples : list N) (e : PyError)
    (json_file_save : str) (out : outputs) :
  decodes pre samples → read_audio (path_wav obj) = Raise e →
  create_json (pre ++ obj :: post) json_file_save out = (Raise e, out).
Proof.
  intros Hpre Hobj. destruct (entries_decoded _ _ Hpre) as (es & Hes & _).
  unfold create_json. rewrite (fill_json_app pre es _ _ Hes). simpl.
  unfold entry_of. by rewrite Hobj.
Qed.

Lemma create_json_read_error_witness :
  create_json (OSI := Faulty.faulty_os)
    [mkAudio (lit "data/spk1/a.wav") (lit "north") (lit "male");
     mkAudio (lit "data/spk1/b.wav") (lit "north") (lit "male");
     mkAudio (lit "data/spk2/clip01.wav") (lit "central") (lit "female")]
    (lit "train.json") []
  = (Raise AudioReadError, []).
Proof.
  apply (create_json_read_error (OSI := Faulty.faulty_os)
           [mkAudio (lit "data/spk1/a.wav") (lit "north") (lit "male")]
           [mkAudio (lit "data/spk2/clip01.wav") (lit "central") (lit "female")]
           (mkAudio (lit "data/spk1/b.wav") (lit "north") (lit "male"))
           [16000%N] AudioReadError (lit "train.json") []).
  - repeat (constructor; [split; vm_compute; reflexivity|]). constructor.
  - reflexivity.
Defined.

(** X16. When every file decodes the manifest has at most as many entries
    as the split has records, and as many exactly when the utterance ids of
    the records are distinct: every repeated id loses a record. *)
Theorem manifest_size {OSI : OS} (wav_list : list AudioRecord)
    (samples : list N) :
  decodes wav_list samples →
  ∃ json_dict,
    fill_json wav_list [] = Ok json_dict
    ∧ (length json_dict ≤ length wav_list)%nat
    ∧ (length json_dict = length wav_list ↔ NoDup (uttids wav_list)).
Proof.
  intros Hdec. destruct (entries_decoded _ _ Hdec) as (es & Hes & _).
  exists (assign_all [] (zip (uttids wav_list) es)).
  split; [by apply fill_json_assign|].
  assert (length (assign_all [] (zip (uttids wav_list) es))
          = length (insertion_order (uttids wav_list))) as ->.
  { rewrite <- (length_fmap fst). fold (keys (assign_all [] (zip (uttids wav_list) es))).
    by rewrite keys_assign_all, fst_zip_uttids. }
  replace (length wav_list) with (length (uttids wav_list))
    by (unfold uttids; apply length_fmap).
  apply length_insertion_order.
Qed.

Lemma manifest_size_witness :
  ∃ json_dict,
    fill_json (OSI := Fixture.mem_os)
      [mkAudio (lit "data/spk1/a.wav") (lit "north") (lit "male");
       mkAudio (lit "data/spk2/clip01.wav") (lit "central") (lit "female");
       mkAudio (lit "data/spk1/a.wav") (lit "south") (lit "male")] []
    = Ok json_dict
    ∧ (length json_dict ≤ 3)%nat.
Proof.
  destruct (manifest_size (OSI := Fixture.mem_os)
              [mkAudio (lit "data/spk1/a.wav") (lit "north") (lit "male");
               mkAudio (lit "data/spk2/clip01.wav") (lit "central") (lit "female");
               mkAudio (lit "data/spk1/a.wav") (lit "south") (lit "male")]
              [16000%N; 1%N; 16000%N])
    as (json_dict & Hfill & Hle & _).
  - repeat (constructor; [split; vm_compute; reflexivity|]). constructor.
  - exists json_dict. split; [exact Hfill|exact Hle].
Defined.

(** X17. In every manifest that the writer fills, each key is the utterance
    id of the path stored under it, and the path and the region stored are
    those of one record of the split. *)
Theorem manifest_keys_match_paths {OSI : OS} (wav_list : list AudioRecord)
    (json_dict : json) :
  fill_json wav_list [] = Ok json_dict →
  Forall (λ kv : str * ManifestEntry,
            kv.1 = uttid_of (entry_wav kv.2)
            ∧ ∃ obj, obj ∈ wav_list ∧ entry_wav kv.2 = path_wav obj
                ∧ entry_regions kv.2 = regions obj) json_dict.
Proof.
  intros Hfill.
  eapply (fill_json_invariant _ wav_list []); [|constructor|done].
  intros obj e Hin He. apply entry_of_fields in He as [Hwav Hreg].
  simpl. split; [by rewrite Hwav|by exists obj].
Qed.

Lemma manifest_keys_match_paths_witness :
  ∃ json_dict,
    fill_json (OSI := Fixture.mem_os)
      [mkAudio (lit "data/spk1/a.wav") (lit "north") (lit "male");
       mkAudio (lit "data/spk2/clip01.wav") (lit "central") (lit "female")] []
    = Ok json_dict
    ∧ Forall (λ kv : str * ManifestEntry, kv.1 = uttid_of (entry_wav kv.2))
        json_dict.
Proof.
  assert (∃ j, fill_json (OSI := Fixture.mem_os)
      [mkAudio (lit "data/spk1/a.wav") (lit "north") (lit "male");
       mkAudio (lit "data/spk2/clip01.wav") (lit "central") (lit "female")] []
      = Ok j) as [j Hj] by (eexists; vm_compute; reflexivity).
  exists j. split; [exact Hj|].
  eapply Forall_impl;
    [exact (manifest_keys_match_paths (OSI := Fixture.mem_os) _ _ Hj)|].
  intros kv [Hkey _]. exact Hkey.
Defined.

(** X18. An utterance id holds no slash, and it is at least four characters
    shorter than the path, or empty. *)
Theorem uttid_no_slash (wav_file : str) :
  ("/"%char ∉ uttid_of wav_file)
  ∧ (length (uttid_of wav_file) ≤ length wav_file - 4)%nat.
Proof.
  unfold uttid_of.
  pose proof (split_on_no_sep "/" wav_file) as Hsep.
  pose proof (split_on_lengths "/" wav_file) as Hlen.
  destruct (last (split_on "/" wav_file)) as [name|] eqn:Hlast.
  - apply last_Some_elem_of in Hlast.
    rewrite Forall_forall in Hsep, Hlen.
    specialize (Hsep _ Hlast). specialize (Hlen _ Hlast). simpl in Hlen.
    unfold drop_last. split.
    + intros Hin. apply Hsep. apply elem_of_take in Hin as (i & Hi & _).
      by eapply list_elem_of_lookup_2.
    + rewrite length_take. lia.
  - split; [apply not_elem_of_nil|simpl; lia].
Qed.

(** X19. The utterance id forgets the directory and the last four
    characters of the file name: files of one stem in two directories, or
    with two extensions of three characters, have the same utterance id. *)
Theorem uttid_collision (dir1 dir2 stem ext1 ext2 : str) :
  "/"%char ∉ stem → "/"%char ∉ ext1 → "/"%char ∉ ext2 →
  length ext1 = 4%nat → length ext2 = 4%nat →
  uttid_of (dir1 ++ "/"%char :: stem ++ ext1) = stem
  ∧ uttid_of (dir2 ++ "/"%char :: stem ++ ext2) = stem.
Proof.
  intros Hs H1 H2 Hl1 Hl2.
  rewrite !uttid_of_path by (rewrite not_elem_of_app; done).
  unfold drop_last. rewrite !length_app, Hl1, Hl2.
  replace (length stem + 4 - 4)%nat with (length stem) by lia.
  by rewrite !take_app_length.
Qed.

Lemma uttid_collision_witness :
  uttid_of (lit "data/spk1" ++ "/"%char :: lit "a" ++ lit ".wav") = lit "a"
  ∧ uttid_of (lit "data/spk2" ++ "/"%char :: lit "a" ++ lit ".mp3") = lit "a".
Proof.
  apply (uttid_collision (lit "data/spk1") (lit "data/spk2") (lit "a")
           (lit ".wav") (lit ".mp3"));
    solve [reflexivity | apply (bool_decide_unpack _); vm_compute; exact I].
Defined.

(** X20. The length written for a file of [n] samples, [n] below [2 ^ 53],
    has [floor (n / 16000)] whole seconds, whatever rate the file was
    recorded at. *)
Theorem entry_whole_seconds {OSI : OS} (obj : AudioRecord) (n : N) :
  read_audio (path_wav obj) = Ok n → Z.of_N n < 2 ^ 53 →
  ∃ e, entry_of obj = Ok e
    ∧ Float.to_int (entry_length e) = Z.of_N n / 16000.
Proof.
  intros Hread Hn. unfold entry_of. rewrite Hread. simpl.
  pose proof (int_true_divide_floor (Z.of_N n) SAMPLERATE) as Hfloor.
  unfold int_true_divide in Hfloor.
  destruct (Float.true_divide (Z.of_N n) SAMPLERATE) as [f|err]; simpl in *.
  - eexists. split; [done|]. simpl.
    assert (Ok (Float.to_int f) = Ok (Z.of_N n / SAMPLERATE)) as Heq
      by (apply Hfloor; [lia|done]).
    by injection Heq.
  - assert (Raise err = Ok (Z.of_N n / SAMPLERATE)) as Heq
      by (apply Hfloor; [lia|done]).
    discriminate Heq.
Qed.

Lemma entry_whole_seconds_witness :
  ∃ e, entry_of (OSI := Fixture.mem_os)
         (mkAudio (lit "data/spk1/b.wav") (lit "north") (lit "male")) = Ok e
    ∧ Float.to_int (entry_length e) = 1.
Proof.
  destruct (entry_whole_seconds (OSI := Fixture.mem_os)
              (mkAudio (lit "data/spk1/b.wav") (lit "north") (lit "male"))
              24000%N) as (e & He & Hsec).
  - reflexivity.
  - vm_compute; reflexivity.
  - exists e. split; [exact He|]. rewrite Hsec. reflexivity.
Defined.

(** ** The whole run *)

Section run_facts.
Context {RND : Random} {OSI : OS}.


Lemma create_json_written wav_list json_dict json_file_save out :
  fill_json wav_list [] = Ok json_dict → writable json_file_save = true →
  create_json wav_list json_file_save out
  = (Ok (), dict_set out json_file_save json_dict).
Proof. intros Hfill Hw. unfold create_json. by rewrite Hfill, Hw. Qed.
End run_facts.



(** X22. The run is not atomic: when the valid split holds a file that does
    not decode, the run stops with the error of the decoder after the train
    manifest has been written, and writes neither the valid nor the test
    manifest. *)
Theorem prepare_data_partial_output {RND : Random} {OSI : OS}
    (data_original path_txt_info save_json_train save_json_valid
       save_json_test : str) (split_ratio : list Z) (seed : Z)
    (g0 g' : rng_state) (out : outputs) (ds : data_split AudioRecord)
    (json_train : json) (e : PyError) :
  seed_and_split data_original path_txt_info split_ratio seed g0
  = (Ok ds, g') →
  fill_json (train ds) [] = Ok json_train →
  writable save_json_train = true →
  fill_json (valid ds) [] = Raise e →
  prepare_data data_original path_txt_info save_json_train save_json_valid
    save_json_test split_ratio seed (mkWorld g0 out)
  = (Raise e, mkWorld g' (dict_set out save_json_train json_train)).
Proof.
  intros Hsplit Htrain Hw Hvalid. unfold prepare_data. simpl.
  rewrite Hsplit, (create_json_written _ _ _ _ Htrain Hw).
  unfold create_json. by rewrite Hvalid.
Qed.

Lemma prepare_data_partial_output_witness :
  ∃ w', prepare_data (RND := Fixture.lcg) (OSI := Faulty.faulty_os)
          (lit "data") (lit "meta.tsv") (lit "train.json")
          (lit "valid.json") (lit "test.json") [1; 2; 2] 12
          (mkWorld (RND := Fixture.lcg) 0 [])
        = (Raise AudioReadError, w')
    ∧ keys (written w') = [lit "train.json"].
Proof.
  assert (∃ ds g', seed_and_split (RND := Fixture.lcg)
                     (OSI := Faulty.faulty_os) (lit "data") (lit "meta.tsv")
                     [1; 2; 2] 12 0 = (Ok ds, g')) as (ds & g' & Hs)
    by (do 2 eexists; vm_compute; reflexivity).
  assert ((∃ j, fill_json (OSI := Faulty.faulty_os) (train ds) [] = Ok j)
          ∧ fill_json (OSI := Faulty.faulty_os) (valid ds) []
            = Raise AudioReadError) as [[j Hj] Hvalid].
  { pose proof Hs as Hs'. vm_compute in Hs'. injection Hs' as <- _.
    split; [eexists|]; vm_compute; reflexivity. }
  exists (mkWorld (RND := Fixture.lcg) g' (dict_set [] (lit "train.json") j)).
  split; [|reflexivity].
  exact (prepare_data_partial_output (RND := Fixture.lcg)
           (OSI := Faulty.faulty_os) (lit "data") (lit "meta.tsv")
           (lit "train.json") (lit "valid.json") (lit "test.json")
           [1; 2; 2] 12 0 g' [] ds j AudioReadError Hs Hj eq_refl Hvalid).
Defined.

(** ** [skip] *)

(** X23. [skip] answers true exactly when every name it is given is a
    file, and so for no name at all; the first name that is no file decides
    the answer. *)
Theorem skip_all_files (isfile : str → bool) (filenames : list str) :
  (skip isfile filenames = true ↔ Forall (λ f, isfile f = true) filenames)
  ∧ (∀ pre filename post,
       filenames = pre ++ filename :: post → isfile filename = false →
       skip isfile filenames = false)
  ∧ ∀ more, skip isfile (filenames ++ more)
            = skip isfile filenames && skip isfile more.
Proof.
  split_and!.
  - induction filenames as [|f fs IH]; simpl.
    + split; [constructor|done].
    + rewrite Forall_cons. destruct (isfile f); simpl.
      * rewrite IH. tauto.
      * split; [done|by intros [? _]].
  - intros pre filename post -> Hf.
    induction pre as [|f pre IH]; simpl.
    + by rewrite Hf.
    + by destruct (isfile f).
  - intros more. induction filenames as [|f fs IH]; simpl; [done|].
    by destruct (isfile f).
Qed.

(** ** A table that matches nothing *)

Lemma rows_records_nothing {OSI : OS} (root : str) (names : list str)
    (rows : list MetadataRow) :
  listdir root = Ok names → Forall (λ row, row.1.1 ∉ names) rows →
  rows_records root rows = Ok [].
Proof.
  intros Hroot. induction 1 as [|row rows Hrow _ IH]; [done|].
  cbn [rows_records]. unfold row_records. rewrite Hroot. simpl.
  rewrite scan_dir_no_entry by done. simpl. by rewrite IH.
Qed.

(** X24. When no speaker of the table is the name of an entry of the audio
    root, the run raises nothing: it writes three manifests without
    entries, and the generator is left in the state of the seed. *)
Theorem prepare_data_nothing_matched {RND : Random} {OSI : OS}
    (data_original path_txt_info save_json_train save_json_valid
       save_json_test : str) (names : list str) (rows : list MetadataRow)
    (split_ratio : list Z) (seed : Z) (g0 : rng_state) (out : outputs) :
  load_in4 path_txt_info = Ok rows →
  listdir data_original = Ok names →
  Forall (λ row, row.1.1 ∉ names) rows →
  (2 ≤ length split_ratio)%nat → sum split_ratio ≠ 0 →
  writable save_json_train = true → writable save_json_valid = true →
  writable save_json_test = true →
  prepare_data data_original path_txt_info save_json_train save_json_valid
    save_json_test split_ratio seed (mkWorld g0 out)
  = (Ok (),
     mkWorld (random_seed seed)
       (dict_set (dict_set (dict_set out save_json_train []) save_json_valid [])
          save_json_test [])).
Proof.
  intros Hload Hroot Hrows Hlen Hsum Hw1 Hw2 Hw3.
  assert (transform_data data_original path_txt_info = Ok []) as Htrans.
  { unfold transform_data, infor_wav_of. rewrite Hload. simpl.
    by rewrite (rows_records_nothing _ names). }
  destruct split_ratio as [|r0 [|r1 rest]]; simpl in Hlen; try lia.
  assert (int_true_divide 0 (sum (r0 :: r1 :: rest)) = Ok 0) as Hd.
  { unfold int_true_divide, Float.true_divide.
    by destruct (Z.eqb_spec (sum (r0 :: r1 :: rest)) 0). }
  assert (seed_and_split data_original path_txt_info (r0 :: r1 :: rest) seed g0
          = (Ok (mkSplit [] [] []), random_seed seed)) as Hsplit.
  { unfold seed_and_split. rewrite Htrans.
    unfold split_sets, split_shuffled, take_split. simpl.
    change (Z.of_nat 0 * r0) with 0. change (Z.of_nat 0 * r1) with 0.
    by rewrite Hd. }
  unfold prepare_data. simpl rng. rewrite Hsplit.
  rewrite (create_json_written [] [] save_json_train _ eq_refl Hw1).
  rewrite (create_json_written [] [] save_json_valid _ eq_refl Hw2).
  by rewrite (create_json_written [] [] save_json_test _ eq_refl Hw3).
Qed.

Lemma prepare_data_nothing_matched_witness :
  prepare_data (RND := Fixture.lcg) (OSI := Faulty.faulty_os) (lit "data")
    (lit "strangers.tsv") (lit "train.json") (lit "valid.json")
    (lit "test.json") [80; 10; 10] 12 (mkWorld (RND := Fixture.lcg) 0 [])
  = (Ok (),
     mkWorld (RND := Fixture.lcg) 12
       [(lit "train.json", []); (lit "valid.json", []);
        (lit "test.json", [])]).
Proof.
  apply (prepare_data_nothing_matched (RND := Fixture.lcg)
           (OSI := Faulty.faulty_os) (lit "data") (lit "strangers.tsv")
           (lit "train.json") (lit "valid.json") (lit "test.json")
           [lit "spk1"; lit "spk2"; lit "notes.txt"]
           [(lit "spk7", lit "north", lit "male")] [80; 10; 10] 12 0 []).
  - vm_compute; reflexivity.
  - reflexivity.
  - apply (bool_decide_unpack _); vm_compute; exact I.
  - simpl; lia.
  - vm_compute; discriminate.
  - reflexivity.
  - reflexivity.
  - reflexivity.
Defined.
